(** * AudioInsight: the in-memory entity store, the recording pipeline and
      the HTTP handlers that project it

    A shallow embedding of [server/storage.ts] ([MemStorage]) and of the
    parts of [server/routes.ts] that drive a recording from "uploaded" to
    "ready" ([processRecording], [generateSummary]) or read it back
    (status, summary and chat handlers).

    Conventions of the embedding:
    - a JS [Map] is an insertion-ordered association list ([JsMap]);
    - integer-valued JS numbers (ids, stored timestamps, durations) are [Z];
      numbers coming from the transcription service (segment starts, the
      duration estimate) are finite doubles, read as rationals [Q];
    - an ISO date string produced by [new Date().toISOString()] is
      represented by the epoch-millisecond value that
      [new Date(s).getTime()] reads back from it;
    - [async] code is written in a state-and-exception monad over a
      [World]; a thrown exception keeps the store as it was at the throw;
    - the file system, the clock and the OpenAI client are oracles ([Env]). *)

From Stdlib Require Import ZArith QArith Qround List String Ascii Bool Lia.
From Stdlib Require Import Permutation Sorted DecimalString.
Import ListNotations.

Local Open Scope Z_scope.

(** ** JavaScript helpers *)

Module Js.

(** [Number.prototype.toString] on an integer-valued number. *)
Definition numToString (z : Z) : string :=
  NilZero.string_of_int (Z.to_int z).

(** [String.prototype.padStart(n, c)] with a one-character pad. *)
Definition padStart (n : nat) (c : ascii) (s : string) : string :=
  (string_of_list_ascii (repeat c (n - String.length s)) ++ s)%string.

(** [Array.prototype.join(sep)]. *)
Definition join (sep : string) (l : list string) : string :=
  String.concat sep l.

Definition nl : string := String (ascii_of_nat 10) EmptyString.

(** [Math.round]: nearest integer, ties towards plus infinity. *)
Definition Math_round (x : Q) : Z := Qfloor (x + (1 # 2))%Q.

(** [Math.floor]. *)
Definition Math_floor (x : Q) : Z := Qfloor x.

(** Truthiness of a possibly missing string: [undefined], [null] and the
    empty string are falsy. *)
Definition truthy (s : option string) : bool :=
  match s with
  | Some EmptyString => false
  | Some _ => true
  | None => false
  end.

(** [s || dflt] on a possibly missing string. *)
Definition orElse (s : option string) (dflt : string) : string :=
  match s with
  | Some EmptyString => dflt
  | Some t => t
  | None => dflt
  end.

(** [x || 0] on a possibly missing number. *)
Definition orZero (x : option Q) : Q :=
  match x with
  | Some q => q
  | None => 0%Q
  end.

Section Sort.
Context {A : Type}.

(** [Array.prototype.sort(cmp)].  ECMAScript requires the sort to be
    stable, so for a consistent comparator the result does not depend
    on the engine's algorithm; it is computed here by stable insertion:
    an element moves right only past elements that compare strictly
    below it. *)
Fixpoint insert (cmp : A -> A -> Z) (x : A) (l : list A) : list A :=
  match l with
  | [] => [x]
  | y :: l' => if cmp x y <=? 0 then x :: l else y :: insert cmp x l'
  end.

Definition sort (cmp : A -> A -> Z) (l : list A) : list A :=
  fold_right (insert cmp) [] l.

(** [Array.prototype.find]. *)
Definition find (p : A -> bool) (l : list A) : option A := List.find p l.
End Sort.

End Js.

(** ** A JS [Map] with integer keys

    Entries are kept in insertion order; [set] on a key that is already
    there replaces the value in place, [set] on a new key appends. *)

Module JsMap.
Section Ops.
Context {V : Type}.

Definition t := list (Z * V).

Definition empty : t := [].

Fixpoint get (k : Z) (m : t) : option V :=
  match m with
  | [] => None
  | (k', v) :: m' => if k' =? k then Some v else get k m'
  end.

Fixpoint set (k : Z) (v : V) (m : t) : t :=
  match m with
  | [] => [(k, v)]
  | (k', v') :: m' =>
      if k' =? k then (k, v) :: m' else (k', v') :: set k v m'
  end.

Definition delete (k : Z) (m : t) : t :=
  filter (fun e => negb (fst e =? k)) m.

Definition entries (m : t) : list (Z * V) := m.

Definition values (m : t) : list V := map snd m.

Definition keys (m : t) : list Z := map fst m.

(** A [Map] never holds a key twice. *)
Definition wf (m : t) : Prop := NoDup (keys m).

(** [for (const [k, v] of m.entries()) if (p v) m.delete(k)].
    The iterator is live, but deleting the entry just visited never
    hides an entry still to come, so the loop visits every entry that
    was in the map when it started. *)
Definition deleteWhere (p : V -> bool) (m : t) : t :=
  fold_left (fun acc e => if p (snd e) then delete (fst e) acc else acc)
            (entries m) m.
End Ops.
Arguments t : clear implicits.
End JsMap.

(** ** Entities ([shared/schema.ts], [shared/types.ts]) *)

Module Recording.
Record t := mk {
  id : Z;
  title : string;
  filename : string;
  duration : Z;
  processed : bool;
  transcribed : bool;
  createdAt : Z
}.

(** [InsertRecording]: the fields picked by [insertRecordingSchema]. *)
Record insert := mkInsert {
  i_title : string;
  i_filename : string;
  i_duration : Z
}.

(** [Partial<Recording>]: every field may be missing. *)
Record partial := mkPartial {
  p_id : option Z;
  p_title : option string;
  p_filename : option string;
  p_duration : option Z;
  p_processed : option bool;
  p_transcribed : option bool;
  p_createdAt : option Z
}.

(** The object literal [{ ...r }]: every field of [r] is present. *)
Definition spread (r : t) : partial :=
  mkPartial (Some (id r)) (Some (title r)) (Some (filename r))
            (Some (duration r)) (Some (processed r))
            (Some (transcribed r)) (Some (createdAt r)).

Definition pick {A : Type} (o : option A) (d : A) : A :=
  match o with Some a => a | None => d end.

(** The object literal [{ ...r, ...u }]: fields of [u] win. *)
Definition merge (r : t) (u : partial) : t :=
  mk (pick (p_id u) (id r)) (pick (p_title u) (title r))
     (pick (p_filename u) (filename r)) (pick (p_duration u) (duration r))
     (pick (p_processed u) (processed r))
     (pick (p_transcribed u) (transcribed r))
     (pick (p_createdAt u) (createdAt r)).

Definition with_duration (d : Z) (u : partial) : partial :=
  mkPartial (p_id u) (p_title u) (p_filename u) (Some d)
            (p_processed u) (p_transcribed u) (p_createdAt u).

Definition with_processed (b : bool) (u : partial) : partial :=
  mkPartial (p_id u) (p_title u) (p_filename u) (p_duration u)
            (Some b) (p_transcribed u) (p_createdAt u).

Definition with_transcribed (b : bool) (u : partial) : partial :=
  mkPartial (p_id u) (p_title u) (p_filename u) (p_duration u)
            (p_processed u) (Some b) (p_createdAt u).
End Recording.

Module Transcript.
Record t := mk {
  id : Z;
  recordingId : Z;
  speaker : string;
  timestamp : Z;
  text : string
}.

Record insert := mkInsert {
  i_recordingId : Z;
  i_speaker : string;
  i_timestamp : Z;
  i_text : string
}.
End Transcript.

Module Summary.
(** [content] is what the completion returned, which may be [null]. *)
Record t := mk {
  id : Z;
  recordingId : Z;
  type : string;
  content : option string
}.

Record insert := mkInsert {
  i_recordingId : Z;
  i_type : string;
  i_content : option string
}.
End Summary.

Module ChatMessage.
Record t := mk {
  id : Z;
  recordingId : Z;
  role : string;
  content : option string;
  timestamp : Z
}.

Record insert := mkInsert {
  i_recordingId : Z;
  i_role : string;
  i_content : option string
}.
End ChatMessage.

(** ** Results of fallible code

    [Throw e] carries the [message] of the thrown [Error]. *)

Inductive Outcome (A : Type) : Type :=
| Ok (a : A)
| Throw (e : string).
Arguments Ok {A} a.
Arguments Throw {A} e.

(** ** The entity store ([server/storage.ts], class [MemStorage]) *)

Module MemStorage.

Record t := mk {
  recordings : JsMap.t Recording.t;
  transcripts : JsMap.t Transcript.t;
  summaries : JsMap.t Summary.t;
  chatMessages : JsMap.t ChatMessage.t;
  recordingIdCounter : Z;
  transcriptIdCounter : Z;
  summaryIdCounter : Z;
  chatMessageIdCounter : Z
}.

(** The constructor: empty maps, counters at 1. *)
Definition new : t := mk JsMap.empty JsMap.empty JsMap.empty JsMap.empty 1 1 1 1.

(** Every map of the store is a [Map]: no key twice. *)
Definition wf (s : t) : Prop :=
  JsMap.wf (recordings s) /\ JsMap.wf (transcripts s) /\
  JsMap.wf (summaries s) /\ JsMap.wf (chatMessages s).

(** Field updates: each replaces one map together with its id counter. *)

Definition put_recordings (m : JsMap.t Recording.t) (counter : Z) (s : t) : t :=
  mk m (transcripts s) (summaries s) (chatMessages s)
     counter (transcriptIdCounter s) (summaryIdCounter s)
     (chatMessageIdCounter s).

Definition put_transcripts (m : JsMap.t Transcript.t) (counter : Z) (s : t) : t :=
  mk (recordings s) m (summaries s) (chatMessages s)
     (recordingIdCounter s) counter (summaryIdCounter s)
     (chatMessageIdCounter s).

Definition put_summaries (m : JsMap.t Summary.t) (counter : Z) (s : t) : t :=
  mk (recordings s) (transcripts s) m (chatMessages s)
     (recordingIdCounter s) (transcriptIdCounter s) counter
     (chatMessageIdCounter s).

Definition put_chatMessages (m : JsMap.t ChatMessage.t) (counter : Z) (s : t) : t :=
  mk (recordings s) (transcripts s) (summaries s) m
     (recordingIdCounter s) (transcriptIdCounter s) (summaryIdCounter s)
     counter.

(** *** Recording operations *)

Definition getRecording (id : Z) (s : t) : option Recording.t :=
  JsMap.get id (recordings s).

Definition getAllRecordings (s : t) : list Recording.t :=
  Js.sort (fun a b => Recording.createdAt b - Recording.createdAt a)
          (JsMap.values (recordings s)).

(** [now] is the reading of [new Date()] taken inside the method. *)
Definition createRecording (now : Z) (ins : Recording.insert) (s : t)
  : Recording.t * t :=
  let id := recordingIdCounter s in
  let recording :=
    Recording.mk id (Recording.i_title ins) (Recording.i_filename ins)
                 (Recording.i_duration ins) false false now in
  (recording, put_recordings (JsMap.set id recording (recordings s)) (id + 1) s).

Definition notFound (id : Z) : string :=
  ("Recording with id " ++ Js.numToString id ++ " not found")%string.

Definition updateRecording (id : Z) (updateData : Recording.partial) (s : t)
  : Outcome Recording.t * t :=
  match JsMap.get id (recordings s) with
  | None => (Throw (notFound id), s)
  | Some recording =>
      let updatedRecording := Recording.merge recording updateData in
      (Ok updatedRecording,
       put_recordings (JsMap.set id updatedRecording (recordings s))
                      (recordingIdCounter s) s)
  end.

Definition deleteRecording (id : Z) (s : t) : t :=
  mk (JsMap.delete id (recordings s))
     (JsMap.deleteWhere (fun transcript => Transcript.recordingId transcript =? id)
                        (transcripts s))
     (JsMap.deleteWhere (fun summary => Summary.recordingId summary =? id)
                        (summaries s))
     (JsMap.deleteWhere (fun message => ChatMessage.recordingId message =? id)
                        (chatMessages s))
     (recordingIdCounter s) (transcriptIdCounter s) (summaryIdCounter s)
     (chatMessageIdCounter s).

(** *** Transcript operations *)

Definition getTranscript (id : Z) (s : t) : option Transcript.t :=
  JsMap.get id (transcripts s).

Definition getTranscriptByRecordingId (recordingId : Z) (s : t)
  : list Transcript.t :=
  Js.sort (fun a b => Transcript.timestamp a - Transcript.timestamp b)
    (filter (fun transcript => Transcript.recordingId transcript =? recordingId)
            (JsMap.values (transcripts s))).

Definition createTranscript (ins : Transcript.insert) (s : t)
  : Transcript.t * t :=
  let id := transcriptIdCounter s in
  let transcript :=
    Transcript.mk id (Transcript.i_recordingId ins) (Transcript.i_speaker ins)
                  (Transcript.i_timestamp ins) (Transcript.i_text ins) in
  (transcript, put_transcripts (JsMap.set id transcript (transcripts s)) (id + 1) s).

(** *** Summary operations *)

Definition getSummary (id : Z) (s : t) : option Summary.t :=
  JsMap.get id (summaries s).

Definition getSummaryByType (recordingId : Z) (type : string) (s : t)
  : option Summary.t :=
  Js.find (fun summary => (Summary.recordingId summary =? recordingId)
                          && String.eqb (Summary.type summary) type)
          (JsMap.values (summaries s)).

Definition createSummary (ins : Summary.insert) (s : t) : Summary.t * t :=
  let id := summaryIdCounter s in
  let summary :=
    Summary.mk id (Summary.i_recordingId ins) (Summary.i_type ins)
               (Summary.i_content ins) in
  (summary, put_summaries (JsMap.set id summary (summaries s)) (id + 1) s).

(** *** Chat operations *)

Definition getChatMessages (recordingId : Z) (s : t) : list ChatMessage.t :=
  Js.sort (fun a b => ChatMessage.timestamp a - ChatMessage.timestamp b)
    (filter (fun message => ChatMessage.recordingId message =? recordingId)
            (JsMap.values (chatMessages s))).

Definition createChatMessage (now : Z) (ins : ChatMessage.insert) (s : t)
  : ChatMessage.t * t :=
  let id := chatMessageIdCounter s in
  let message :=
    ChatMessage.mk id (ChatMessage.i_recordingId ins) (ChatMessage.i_role ins)
                   (ChatMessage.i_content ins) now in
  (message, put_chatMessages (JsMap.set id message (chatMessages s)) (id + 1) s).

End MemStorage.

(** ** The OpenAI client as seen by the routes *)

Module OpenAI.

(** One element of [transcription.segments]. *)
Record Segment := mkSegment {
  start : Q;
  text : string
}.

(** The [verbose_json] transcription; [segments] is missing when the
    service returns no segmentation. *)
Record Transcription := mkTranscription {
  t_text : option string;
  t_segments : option (list Segment);
  t_duration : option Q
}.

(** One entry of [messages] in a chat completion request. *)
Record Message := mkMessage {
  role : string;
  content : string
}.

End OpenAI.

(** ** Environment and world *)

(** The collaborators the routes call out to.
    - [clock n] is the reading of the [n]-th [new Date()];
    - [readFile name] is [fs.readFile(path.resolve("uploads", name))];
    - [transcribe name bytes] is [openai.audio.transcriptions.create] on the
      [File] built from the bytes;
    - [complete n messages] is [response.choices[0].message.content] of the
      [n]-th call to [openai.chat.completions.create]; [Throw] stands for a
      rejected call or a response without a first choice. *)
Record Env := mkEnv {
  clock : nat -> Z;
  readFile : string -> Outcome (list Byte.byte);
  transcribe : string -> list Byte.byte -> Outcome OpenAI.Transcription;
  complete : nat -> list OpenAI.Message -> Outcome (option string)
}.

(** A call [generateSummary(recordingId, type, transcriptText)] that was
    started without being awaited. *)
Record SummaryJob := mkJob {
  j_recordingId : Z;
  j_type : string;
  j_transcriptText : string
}.

(** The state the routes run in: the singleton [storage], the number of
    clock readings taken, the chat-completion requests sent so far (oldest
    first) and the summary jobs dispatched by pipelines and not yet
    settled. *)
Record World := mkWorld {
  storage : MemStorage.t;
  ticks : nat;
  completions : list (list OpenAI.Message);
  dispatched : list SummaryJob
}.

Definition initialWorld : World := mkWorld MemStorage.new 0 [] [].

(** ** The monad of [async] code *)

Definition M (A : Type) : Type := World -> Outcome A * World.

Definition ret {A : Type} (a : A) : M A := fun w => (Ok a, w).

Definition bind {A B : Type} (c : M A) (k : A -> M B) : M B :=
  fun w =>
    match c w with
    | (Ok a, w') => k a w'
    | (Throw e, w') => (Throw e, w')
    end.

Definition throw {A : Type} (e : string) : M A := fun w => (Throw e, w).

(** [try { body } catch (error) { handler }]. *)
Definition try_catch {A : Type} (body : M A) (handler : string -> M A) : M A :=
  fun w =>
    match body w with
    | (Ok a, w') => (Ok a, w')
    | (Throw e, w') => handler e w'
    end.

Declare Scope js_scope.
Delimit Scope js_scope with js.
Notation "x <- c ;; k" := (bind c (fun x => k))
  (at level 61, c at next level, right associativity) : js_scope.
Notation "c ;;; k" := (bind c (fun _ => k))
  (at level 61, right associativity) : js_scope.
Local Open Scope js_scope.

Fixpoint forEach {A : Type} (l : list A) (f : A -> M unit) : M unit :=
  match l with
  | [] => ret tt
  | x :: l' => f x ;;; forEach l' f
  end.

Definition with_storage (s : MemStorage.t) (w : World) : World :=
  mkWorld s (ticks w) (completions w) (dispatched w).

(** A storage method that only reads. *)
Definition storage_read {A : Type} (f : MemStorage.t -> A) : M A :=
  fun w => (Ok (f (storage w)), w).

(** A storage method that writes and cannot fail. *)
Definition storage_do {A : Type} (f : MemStorage.t -> A * MemStorage.t) : M A :=
  fun w => let (a, s') := f (storage w) in (Ok a, with_storage s' w).

(** A storage method that may throw. *)
Definition storage_try {A : Type}
  (f : MemStorage.t -> Outcome A * MemStorage.t) : M A :=
  fun w => let (r, s') := f (storage w) in (r, with_storage s' w).

(** ** The routes ([server/routes.ts]) *)

Local Open Scope string_scope.
Local Open Scope Z_scope.

(** A JSON response body. *)
Inductive Body : Type :=
| JsonMessage (message : string) (error : option string)
| JsonStatus (progress : Z) (status : string)
| JsonContent (content : option string)
| JsonChatResponse (response : option string).

Record Response := mkResponse {
  statusCode : Z;
  body : Body
}.

(** [res.json(b)] without an explicit status answers 200. *)
Definition json (b : Body) : Response := mkResponse 200 b.

(** A template literal spread over several source lines, each continuation
    line indented by [indent] spaces. *)
Definition lines (indent : nat) (ls : list string) : string :=
  Js.join (Js.nl ++ string_of_list_ascii (repeat " "%char indent))%string ls.

(** [`${speaker} (${minutes}:${seconds padded to two digits}): ${text}`]. *)
Definition stamp (speaker : string) (minutes seconds : Z) (text : string)
  : string :=
  (speaker ++ " (" ++ Js.numToString minutes ++ ":"
     ++ Js.padStart 2 "0"%char (Js.numToString seconds) ++ "): " ++ text)%string.

(** The line a stored segment contributes to the transcript text in the
    summary and chat handlers. *)
Definition storedLine (t : Transcript.t) : string :=
  stamp (Transcript.speaker t)
        (Transcript.timestamp t / 60)
        (Z.rem (Transcript.timestamp t) 60)
        (Transcript.text t).

(** The line a fresh segment contributes in the pipeline. *)
Definition segmentLine (segment : OpenAI.Segment) : string :=
  stamp "Speaker"
        (Js.Math_floor (OpenAI.start segment / 60)%Q)
        (Z.rem (Js.Math_round (OpenAI.start segment)) 60)
        (OpenAI.text segment).

Definition blankLine : string := (Js.nl ++ Js.nl)%string.

Definition unableToTranscribe : string := "Unable to transcribe audio content".

(** The [switch (type)] of [generateSummary]. *)
Definition promptTemplate (type : string) : string :=
  if String.eqb type "general" then
    lines 6 [ "Provide a concise summary of the following conversation transcript. ";
              "Highlight the key topics discussed, decisions made, and action items. ";
              "Format with clear paragraphs and bullet points where appropriate." ]
  else if String.eqb type "mental-models" then
    lines 6 [ "Analyze the following conversation transcript using mental models. ";
              "Identify the thinking patterns, cognitive biases, decision-making frameworks, and ";
              "problem-solving approaches demonstrated. Provide insights on how these mental models ";
              "affected the conversation and outcomes." ]
  else if String.eqb type "1-on-1" then
    lines 6 [ "Summarize this 1-on-1 meeting transcript with a focus on:";
              "1. Main discussion points";
              "2. Feedback exchanged";
              "3. Goals and expectations discussed";
              "4. Growth opportunities identified";
              "5. Action items and next steps";
              "Format this as a structured meeting summary." ]
  else if String.eqb type "sales" then
    lines 6 [ "Analyze this sales conversation transcript. Focus on:";
              "1. Customer pain points and needs identified";
              "2. Objections raised and how they were addressed";
              "3. Value propositions presented";
              "4. Next steps agreed upon";
              "5. Areas for improvement in the sales approach";
              "Provide actionable insights for sales follow-up." ]
  else if String.eqb type "timeline" then
    lines 6 [ "Create a chronological timeline breakdown of this conversation. ";
              "Structure it by time segments, highlighting when key topics shifted, important decisions";
              "were made, or new information was introduced. Make it easy to see the conversation flow ";
              "and progression of ideas." ]
  else "Provide a general summary of the following conversation transcript.".

(** The request [generateSummary] sends. *)
Definition summaryRequest (type transcriptText : string) : list OpenAI.Message :=
  [ OpenAI.mkMessage "system"
      (lines 8 [ "You are an AI assistant that helps analyze conversation transcripts. ";
                 (promptTemplate type
                    ++ " Be concise but thorough. Format your response for readability with ")%string;
                 "appropriate paragraphs, lists, and spacing." ]);
    OpenAI.mkMessage "user" transcriptText ].

(** The request the chat handler sends. *)
Definition chatRequest (transcriptText message : string) : list OpenAI.Message :=
  [ OpenAI.mkMessage "system"
      (lines 12 [ "You are an AI assistant that helps analyze conversation transcripts. ";
                  "Answer questions about the following conversation transcript, providing specific details and insights.";
                  "Use a professional, helpful tone. Keep answers concise but thorough. ";
                  "Only answer based on information in the transcript, don't make up details.";
                  "Format your response with appropriate paragraphs, lists, and spacing for readability." ]);
    OpenAI.mkMessage "user" ("Transcript:" ++ blankLine ++ transcriptText)%string;
    OpenAI.mkMessage "user" message ].

(** The five summary types the pipeline fans out to, in source order. *)
Definition summaryTypes : list string :=
  [ "general"; "mental-models"; "1-on-1"; "sales"; "timeline" ]%string.

Section Routes.

Variable env : Env.

(** [new Date()]. *)
Definition newDate : M Z :=
  fun w => (Ok (clock env (ticks w)),
            mkWorld (storage w) (S (ticks w)) (completions w) (dispatched w)).

(** [fs.readFile] on the upload of that name. *)
Definition fs_readFile (name : string) : M (list Byte.byte) :=
  fun w => (readFile env name, w).

(** [openai.audio.transcriptions.create]. *)
Definition transcriptions_create (name : string) (bytes : list Byte.byte)
  : M OpenAI.Transcription :=
  fun w => (transcribe env name bytes, w).

(** [openai.chat.completions.create], read at
    [choices[0].message.content]; the request is recorded when it is sent. *)
Definition completions_create (messages : list OpenAI.Message)
  : M (option string) :=
  fun w => (complete env (List.length (completions w)) messages,
            mkWorld (storage w) (ticks w) (completions w ++ [messages])%list
                    (dispatched w)).

(** Start [generateSummary] calls without awaiting them
    ([Promise.all([...]).catch(...)]). *)
Definition dispatch (jobs : list SummaryJob) : M unit :=
  fun w => (Ok tt,
            mkWorld (storage w) (ticks w) (completions w) (dispatched w ++ jobs)%list).

Definition getRecording (id : Z) : M (option Recording.t) :=
  storage_read (MemStorage.getRecording id).

Definition updateRecording (id : Z) (u : Recording.partial) : M Recording.t :=
  storage_try (MemStorage.updateRecording id u).

Definition getTranscriptByRecordingId (id : Z) : M (list Transcript.t) :=
  storage_read (MemStorage.getTranscriptByRecordingId id).

Definition createTranscript (ins : Transcript.insert) : M Transcript.t :=
  storage_do (MemStorage.createTranscript ins).

Definition getSummaryByType (id : Z) (type : string) : M (option Summary.t) :=
  storage_read (MemStorage.getSummaryByType id type).

Definition createSummary (ins : Summary.insert) : M Summary.t :=
  storage_do (MemStorage.createSummary ins).

Definition createChatMessage (ins : ChatMessage.insert) : M ChatMessage.t :=
  now <- newDate ;;
  storage_do (MemStorage.createChatMessage now ins).

Definition createRecording (ins : Recording.insert) : M Recording.t :=
  now <- newDate ;;
  storage_do (MemStorage.createRecording now ins).

(** *** [generateSummary] *)

Definition generateSummary (recordingId : Z) (type transcriptText : string)
  : M Summary.t :=
  summary <- completions_create (summaryRequest type transcriptText) ;;
  storedSummary <- createSummary (Summary.mkInsert recordingId type summary) ;;
  ret storedSummary.

(** A dispatched job running to its end; a rejection is only logged. *)
Definition settle (job : SummaryJob) : M unit :=
  try_catch
    (generateSummary (j_recordingId job) (j_type job) (j_transcriptText job) ;;;
     ret tt)
    (fun _ => ret tt).

(** *** [processRecording] *)

(** The body of the [try] block.  [recording] is the object the caller
    passed in; the store replaces objects on update and never mutates
    them, so [recording] keeps the field values it had at creation. *)
Definition processRecording_try (recording : Recording.t) : M unit :=
  fileBuffer <- fs_readFile (Recording.filename recording) ;;
  transcription <- transcriptions_create (Recording.filename recording) fileBuffer ;;
  (if Recording.duration recording =? 0 then
     updateRecording (Recording.id recording)
       (Recording.with_processed true
          (Recording.with_duration
             (Js.Math_round (Js.orZero (OpenAI.t_duration transcription)))
             (Recording.spread recording)))
   else
     updateRecording (Recording.id recording)
       (Recording.with_processed true (Recording.spread recording))) ;;;
  transcriptText <-
    match OpenAI.t_segments transcription with
    | Some segments =>
        forEach segments (fun segment =>
          createTranscript
            (Transcript.mkInsert (Recording.id recording) "Speaker"
               (Js.Math_round (OpenAI.start segment)) (OpenAI.text segment)) ;;;
          ret tt) ;;;
        updateRecording (Recording.id recording)
          (Recording.with_transcribed true (Recording.spread recording)) ;;;
        ret (Js.join blankLine (map segmentLine segments))
    | None =>
        createTranscript
          (Transcript.mkInsert (Recording.id recording) "Speaker" 0
             (Js.orElse (OpenAI.t_text transcription) unableToTranscribe)) ;;;
        updateRecording (Recording.id recording)
          (Recording.with_transcribed true (Recording.spread recording)) ;;;
        ret ("Speaker (0:00): "
               ++ Js.orElse (OpenAI.t_text transcription) unableToTranscribe)%string
    end ;;
  dispatch (map (fun type => mkJob (Recording.id recording) type transcriptText)
                summaryTypes).

(** The [catch] block. *)
Definition processRecording_catch (recording : Recording.t) (error : string)
  : M unit :=
  updateRecording (Recording.id recording)
    (Recording.with_transcribed true
       (Recording.with_processed true (Recording.spread recording))) ;;;
  ret tt.

Definition processRecording (recording : Recording.t) : M unit :=
  try_catch (processRecording_try recording) (processRecording_catch recording).

(** *** [GET /api/recordings/:id/status] *)

Definition getStatus (id : Z) : M Response :=
  try_catch
    (recording <- getRecording id ;;
     match recording with
     | None => ret (mkResponse 404 (JsonMessage "Recording not found" None))
     | Some recording =>
         if Recording.transcribed recording then
           ret (json (JsonStatus 100 "Completed"))
         else if Recording.processed recording then
           ret (json (JsonStatus 75 "Generating insights"))
         else
           ret (json (JsonStatus 25 "Transcribing audio"))
     end)
    (fun error =>
       ret (mkResponse 500 (JsonMessage "Failed to get status" (Some error)))).

(** *** [GET /api/recordings/:id/summary/:type] *)

Definition getSummary (id : Z) (type : string) : M Response :=
  try_catch
    (summary <- getSummaryByType id type ;;
     match summary with
     | None =>
         recording <- getRecording id ;;
         match recording with
         | None => ret (mkResponse 404 (JsonMessage "Recording not found" None))
         | Some _ =>
             transcript <- getTranscriptByRecordingId id ;;
             match transcript with
             | [] => ret (mkResponse 404 (JsonMessage "Transcript not found" None))
             | _ :: _ =>
                 let transcriptText :=
                   Js.join blankLine (map storedLine transcript) in
                 newSummary <- generateSummary id type transcriptText ;;
                 ret (json (JsonContent (Summary.content newSummary)))
             end
         end
     | Some summary => ret (json (JsonContent (Summary.content summary)))
     end)
    (fun error =>
       ret (mkResponse 500 (JsonMessage "Failed to get summary" (Some error)))).

(** *** [POST /api/recordings/:id/chat]

    [message] is [req.body.message], which may be missing. *)

Definition postChat (id : Z) (message : option string) : M Response :=
  try_catch
    (if negb (Js.truthy message) then
       ret (mkResponse 400 (JsonMessage "No message provided" None))
     else
       recording <- getRecording id ;;
       match recording with
       | None => ret (mkResponse 404 (JsonMessage "Recording not found" None))
       | Some _ =>
           transcript <- getTranscriptByRecordingId id ;;
           match transcript with
           | [] => ret (mkResponse 404 (JsonMessage "Transcript not found" None))
           | _ :: _ =>
               createChatMessage (ChatMessage.mkInsert id "user" message) ;;;
               let transcriptText :=
                 Js.join blankLine (map storedLine transcript) in
               (* [message] is truthy here: [Js.orElse] reads the string. *)
               aiResponse <-
                 completions_create
                   (chatRequest transcriptText (Js.orElse message EmptyString)) ;;
               createChatMessage (ChatMessage.mkInsert id "assistant" aiResponse) ;;;
               ret (json (JsonChatResponse aiResponse))
           end
       end)
    (fun error =>
       ret (mkResponse 500
              (JsonMessage "Failed to process chat message" (Some error)))).

End Routes.

Local Close Scope string_scope.

(** ** Store invariant

    What the constructor establishes and every method keeps: each map holds
    a key at most once, and every key is below the counter that allocates
    the map's next id. *)

Definition below (counter : Z) {V : Type} (m : JsMap.t V) : Prop :=
  Forall (fun k => k < counter) (JsMap.keys m).

Definition store_ok (s : MemStorage.t) : Prop :=
  MemStorage.wf s /\
  below (MemStorage.recordingIdCounter s) (MemStorage.recordings s) /\
  below (MemStorage.transcriptIdCounter s) (MemStorage.transcripts s) /\
  below (MemStorage.summaryIdCounter s) (MemStorage.summaries s) /\
  below (MemStorage.chatMessageIdCounter s) (MemStorage.chatMessages s).

(** ** The text the pipeline's fallback segment is described to carry

    Following the description "the whole-text result, or a fixed fallback
    string when that text is absent": a text that is there is kept as it
    is.  To be compared with what [processRecording] stores, which goes
    through [Js.orElse]. *)

Definition described_fallback_text (text : option string) : string :=
  match text with
  | Some whole => whole
  | None => unableToTranscribe
  end.

(** ** Sample collaborators and worlds *)

Definition sampleTranscription : OpenAI.Transcription :=
  OpenAI.mkTranscription (Some "hello there"%string)
    (Some [ OpenAI.mkSegment (2 # 5) "hello"%string;
            OpenAI.mkSegment (123 # 2) "there"%string ])
    (Some (316 # 5)).

(** Everything answers. *)
Definition sampleEnv : Env :=
  mkEnv (fun n => 1700000000000 + Z.of_nat n)
        (fun _ => Ok [])
        (fun _ _ => Ok sampleTranscription)
        (fun _ _ => Ok (Some "A short summary"%string)).

(** The transcription call is rejected. *)
Definition failingEnv : Env :=
  mkEnv (clock sampleEnv) (readFile sampleEnv)
        (fun _ _ => Throw "429 quota exceeded"%string)
        (complete sampleEnv).

(** The transcription comes back without segmentation. *)
Definition fallbackEnv : Env :=
  mkEnv (clock sampleEnv) (readFile sampleEnv)
        (fun _ _ => Ok (OpenAI.mkTranscription (Some "hello there"%string) None None))
        (complete sampleEnv).

(** The transcription comes back without segmentation and with an empty
    text. *)
Definition emptyTextEnv : Env :=
  mkEnv (clock sampleEnv) (readFile sampleEnv)
        (fun _ _ => Ok (OpenAI.mkTranscription (Some EmptyString) None None))
        (complete sampleEnv).

Definition sampleInsert : Recording.insert :=
  Recording.mkInsert "standup"%string "1700000000000-42.wav"%string 0.

(** The recording that [createRecording] hands to the pipeline. *)
Definition uploaded : Recording.t :=
  Recording.mk 1 "standup"%string "1700000000000-42.wav"%string 0
               false false 1700000000000.

(** The world right after the upload handler created [uploaded]. *)
Definition uploadedWorld : World :=
  Eval vm_compute in snd (createRecording sampleEnv sampleInsert initialWorld).

(** The world after the pipeline ran on [uploaded] with [sampleEnv]. *)
Definition processedWorld : World :=
  Eval vm_compute in snd (processRecording sampleEnv uploaded uploadedWorld).

(** A store with two recordings; the first has two segments, a summary
    and a chat exchange. *)
Definition sampleStore : MemStorage.t :=
  Eval vm_compute in
    storage
      (snd ((generateSummary sampleEnv 1 "general"%string "Speaker (0:00): hello" ;;;
             postChat sampleEnv 1 (Some "Who spoke?"%string) ;;;
             createRecording sampleEnv
               (Recording.mkInsert "retro"%string "1700000000001-7.mp3"%string 30))%js
              processedWorld)).

(** A store holding one summary for a recording id that has no recording:
    [createSummary] does not look the recording up. *)
Definition orphanStore : MemStorage.t :=
  Eval vm_compute in
    snd (MemStorage.createSummary
           (Summary.mkInsert 7 "general"%string (Some "notes"%string))
           MemStorage.new).

(** ** The user slice of [MemStorage]

    [getUser], [getUserByUsername] and [createUser] touch only the [users]
    map and [userIdCounter]; that slice of the class is modelled on its
    own. *)

Module User.
Record t := mk {
  id : Z;
  username : string;
  password : string
}.

Record insert := mkInsert {
  i_username : string;
  i_password : string
}.
End User.

Module UserStore.

Record t := mk {
  users : JsMap.t User.t;
  userIdCounter : Z
}.

Definition new : t := mk JsMap.empty 1.

Definition getUser (id : Z) (s : t) : option User.t :=
  JsMap.get id (users s).

Definition getUserByUsername (username : string) (s : t) : option User.t :=
  Js.find (fun user => String.eqb (User.username user) username)
          (JsMap.values (users s)).

Definition createUser (insertUser : User.insert) (s : t) : User.t * t :=
  let id := userIdCounter s in
  let user := User.mk id (User.i_username insertUser) (User.i_password insertUser) in
  (user, mk (JsMap.set id user (users s)) (id + 1)).

End UserStore.

Definition user_store_ok (s : UserStore.t) : Prop :=
  JsMap.wf (UserStore.users s) /\
  below (UserStore.userIdCounter s) (UserStore.users s).

(** ** The remaining routes of [server/routes.ts] *)

Local Open Scope string_scope.
Local Open Scope Z_scope.

(** What these routes answer with: one of the bodies above, a recording,
    a list of recordings, or a list of segments. *)
Inductive Payload : Type :=
| PlainBody (b : Body)
| JsonRecording (recording : Recording.t)
| JsonRecordings (recordings : list Recording.t)
| JsonTranscript (transcript : list Transcript.t).

Record Reply := mkReply {
  replyCode : Z;
  payload : Payload
}.

(** [req.file] as multer leaves it: the name the upload was stored under
    and the name the client gave. *)
Record UploadedFile := mkFile {
  f_filename : string;
  f_originalname : string
}.

(** The multipart form of [POST /api/recordings]: [r_duration] is
    [parseInt(req.body.duration)], [None] standing for [NaN]. *)
Record RecorderForm := mkForm {
  r_file : option UploadedFile;
  r_title : option string;
  r_duration : option Z
}.

(** [n || 0] on the result of [parseInt]. *)
Definition orZeroInt (n : option Z) : Z :=
  match n with
  | Some z => z
  | None => 0
  end.

Section EntityRoutes.

Variable env : Env.

(** [existsSync] and [fs.unlink] on the upload of a given name, and
    [path.basename(name, path.extname(name))]. *)
Variable existsSync : string -> bool.
Variable unlink : string -> Outcome unit.
Variable stem : string -> string.

Definition fs_unlink (name : string) : M unit :=
  fun w => (unlink name, w).

(** *** [GET /api/recordings] *)

Definition listRecordings : M Reply :=
  try_catch
    (recordings <- storage_read MemStorage.getAllRecordings ;;
     ret (mkReply 200 (JsonRecordings recordings)))
    (fun error =>
       ret (mkReply 500
              (PlainBody (JsonMessage "Failed to get recordings" (Some error))))).

(** *** [GET /api/recordings/:id] *)

Definition getRecordingRoute (id : Z) : M Reply :=
  try_catch
    (recording <- getRecording id ;;
     match recording with
     | None =>
         ret (mkReply 404 (PlainBody (JsonMessage "Recording not found" None)))
     | Some recording => ret (mkReply 200 (JsonRecording recording))
     end)
    (fun error =>
       ret (mkReply 500
              (PlainBody (JsonMessage "Failed to get recording" (Some error))))).

(** *** [POST /api/recordings] and [POST /api/recordings/upload]

    Both answer with the recording as created and start the pipeline on it
    without awaiting it; the second component is the list of recordings a
    pipeline was started for. *)

Definition postRecording (form : RecorderForm)
  : M (Reply * list Recording.t) :=
  try_catch
    (match r_file form with
     | None =>
         ret (mkReply 400 (PlainBody (JsonMessage "No audio file provided" None)),
              [])
     | Some file =>
         let title := Js.orElse (r_title form) "Untitled Recording" in
         let duration := orZeroInt (r_duration form) in
         recording <-
           createRecording env
             (Recording.mkInsert title (f_filename file) duration) ;;
         ret (mkReply 201 (JsonRecording recording), [recording])
     end)
    (fun error =>
       ret (mkReply 500
              (PlainBody (JsonMessage "Failed to create recording" (Some error))),
            [])).

Definition postUpload (file : option UploadedFile)
  : M (Reply * list Recording.t) :=
  try_catch
    (match file with
     | None =>
         ret (mkReply 400 (PlainBody (JsonMessage "No audio file provided" None)),
              [])
     | Some file =>
         let title := stem (f_originalname file) in
         recording <-
           createRecording env (Recording.mkInsert title (f_filename file) 0) ;;
         ret (mkReply 201 (JsonRecording recording), [recording])
     end)
    (fun error =>
       ret (mkReply 500
              (PlainBody (JsonMessage "Failed to upload recording" (Some error))),
            [])).

(** [processRecording(recording).catch(err => console.error(...))]: the
    started pipeline running to its end, a rejection only being logged. *)
Definition detached (recording : Recording.t) : M unit :=
  try_catch (processRecording env recording) (fun _ => ret tt).

(** *** [DELETE /api/recordings/:id] *)

Definition deleteRecordingRoute (id : Z) : M Reply :=
  try_catch
    (recording <- getRecording id ;;
     match recording with
     | None =>
         ret (mkReply 404 (PlainBody (JsonMessage "Recording not found" None)))
     | Some recording =>
         (if existsSync (Recording.filename recording) then
            fs_unlink (Recording.filename recording)
          else ret tt) ;;;
         storage_do (fun s => (tt, MemStorage.deleteRecording id s)) ;;;
         ret (mkReply 200
                (PlainBody (JsonMessage "Recording deleted successfully" None)))
     end)
    (fun error =>
       ret (mkReply 500
              (PlainBody (JsonMessage "Failed to delete recording" (Some error))))).

(** *** [GET /api/recordings/:id/transcript] *)

Definition getTranscriptRoute (id : Z) : M Reply :=
  try_catch
    (transcript <- getTranscriptByRecordingId id ;;
     ret (mkReply 200 (JsonTranscript transcript)))
    (fun error =>
       ret (mkReply 500
              (PlainBody (JsonMessage "Failed to get transcript" (Some error))))).

End EntityRoutes.

(** ** The transcript viewer's [formatTimestamp], on whole seconds *)

Definition formatTimestamp (seconds : Z) : string :=
  let minutes := seconds / 60 in
  let remainingSeconds := Z.rem seconds 60 in
  Js.numToString minutes ++ ":"
    ++ Js.padStart 2 "0"%char (Js.numToString remainingSeconds).

Local Close Scope string_scope.

(** ** More sample collaborators and states *)

(** The transcription comes back with an empty segment list. *)
Definition emptySegmentsEnv : Env :=
  mkEnv (clock sampleEnv) (readFile sampleEnv)
        (fun _ _ => Ok (OpenAI.mkTranscription (Some EmptyString) (Some []) None))
        (complete sampleEnv).

(** Every chat completion is rejected. *)
Definition completionFailingEnv : Env :=
  mkEnv (clock sampleEnv) (readFile sampleEnv) (transcribe sampleEnv)
        (fun _ _ => Throw "503 service unavailable"%string).

(** A world around [sampleStore]. *)
Definition sampleWorld : World :=
  Eval vm_compute in with_storage sampleStore initialWorld.

(** A user store with one user. *)
Definition sampleUsers : UserStore.t :=
  Eval vm_compute in
    snd (UserStore.createUser (User.mkInsert "ada"%string "s3cret"%string)
                              UserStore.new).

(** ** Computations that keep the store invariant

    Whatever the outcome, normal or thrown, the store they leave satisfies
    [store_ok] when the store they started from did. *)

Definition keeps_ok {A : Type} (c : M A) : Prop :=
  forall w, store_ok (storage w) -> store_ok (storage (snd (c w))).

(** ** What the segment loop of the pipeline is to leave behind

    One entry per segment, in order, under consecutive ids from [next]. *)

Fixpoint persistedSegments (recordingId next : Z)
  (segments : list OpenAI.Segment) : list (Z * Transcript.t) :=
  match segments with
  | [] => []
  | segment :: rest =>
      (next,
       Transcript.mk next recordingId "Speaker"%string
                     (Js.Math_round (OpenAI.start segment))
                     (OpenAI.text segment))
        :: persistedSegments recordingId (next + 1) rest
  end.

(** * Facts about the JavaScript helpers *)

Section SortFacts.
Context {A : Type}.
Variable cmp : A -> A -> Z.

Lemma insert_perm (x : A) (l : list A) :
  Permutation (Js.insert cmp x l) (x :: l).
Proof.
  induction l as [|y l IH]; simpl.
  - apply Permutation_refl.
  - destruct (cmp x y <=? 0).
    + apply Permutation_refl.
    + eapply perm_trans; [apply perm_skip, IH | apply perm_swap].
Qed.

Lemma sort_perm (l : list A) : Permutation (Js.sort cmp l) l.
Proof.
  induction l as [|x l IH]; simpl.
  - constructor.
  - eapply perm_trans; [apply insert_perm | apply perm_skip, IH].
Qed.

Lemma sort_In (l : list A) (x : A) : In x (Js.sort cmp l) <-> In x l.
Proof.
  split; apply Permutation_in; [| apply Permutation_sym]; apply sort_perm.
Qed.

(** The comparators of the store all have the shape [key a - key b]. *)
Variable key : A -> Z.
Hypothesis cmp_key : forall a b, cmp a b = key a - key b.

Let le_key (a b : A) : Prop := key a <= key b.

Lemma insert_sorted (x : A) (l : list A) :
  StronglySorted le_key l -> StronglySorted le_key (Js.insert cmp x l).
Proof.
  induction 1 as [|y l Hs IH Hall]; simpl.
  - repeat constructor.
  - rewrite cmp_key. destruct (Z.leb_spec (key x - key y) 0) as [Hle|Hgt].
    + constructor; [constructor; assumption|].
      constructor; [unfold le_key; lia|].
      eapply Forall_impl; [|exact Hall].
      unfold le_key; intros; lia.
    + constructor; [exact IH|].
      eapply Permutation_Forall; [apply Permutation_sym, insert_perm|].
      constructor; [unfold le_key; lia | exact Hall].
Qed.

Lemma sort_sorted (l : list A) : StronglySorted le_key (Js.sort cmp l).
Proof.
  induction l as [|x l IH]; simpl.
  - constructor.
  - apply insert_sorted, IH.
Qed.

End SortFacts.

(** Two ascending lists of integers with the same elements are equal. *)
Lemma sorted_perm_eq (l1 l2 : list Z) :
  StronglySorted Z.le l1 -> StronglySorted Z.le l2 ->
  Permutation l1 l2 -> l1 = l2.
Proof.
  revert l2. induction l1 as [|a l1 IH]; intros l2 H1 H2 Hp.
  - apply Permutation_nil in Hp. now subst.
  - destruct l2 as [|b l2].
    + apply Permutation_sym, Permutation_nil in Hp. discriminate.
    + apply StronglySorted_inv in H1 as [H1 Ha].
      apply StronglySorted_inv in H2 as [H2 Hb].
      assert (a = b) as ->.
      { assert (In a (b :: l2)) as Ia
          by (eapply Permutation_in; [exact Hp | now left]).
        assert (In b (a :: l1)) as Ib
          by (eapply Permutation_in; [apply Permutation_sym, Hp | now left]).
        rewrite Forall_forall in Ha, Hb.
        destruct Ia as [->|Ia]; [reflexivity|].
        destruct Ib as [->|Ib]; [reflexivity|].
        specialize (Ha _ Ib). specialize (Hb _ Ia). lia. }
      f_equal. apply IH; try assumption.
      eapply Permutation_cons_inv. exact Hp.
Qed.

Lemma sorted_map {A : Type} (key : A -> Z) (l : list A) :
  StronglySorted (fun a b => key a <= key b) l ->
  StronglySorted Z.le (map key l).
Proof.
  induction 1 as [|a l Hs IH Hall]; simpl; constructor; [exact IH|].
  rewrite Forall_forall in *. intros k Hk.
  apply in_map_iff in Hk as (b & <- & Hb). now apply Hall.
Qed.

(** * Facts about [JsMap] *)

Section MapFacts.
Context {V : Type}.
Implicit Types (m : JsMap.t V) (k : Z) (v : V).

Lemma get_In k v m : JsMap.get k m = Some v -> In (k, v) m.
Proof.
  induction m as [|[k' v'] m IH]; simpl; [discriminate|].
  destruct (Z.eqb_spec k' k) as [->|Hne].
  - intros [= ->]. now left.
  - intros H. right. now apply IH.
Qed.

Lemma get_None k m : JsMap.get k m = None <-> ~ In k (JsMap.keys m).
Proof.
  induction m as [|[k' v'] m IH]; simpl.
  - tauto.
  - destruct (Z.eqb_spec k' k) as [->|Hne].
    + split; [discriminate | intros H; exfalso; apply H; now left].
    + rewrite IH. intuition congruence.
Qed.

Lemma In_get k v m : JsMap.wf m -> In (k, v) m -> JsMap.get k m = Some v.
Proof.
  unfold JsMap.wf, JsMap.keys.
  induction m as [|[k' v'] m IH]; simpl; [tauto|].
  intros Hnd [Heq|Hin].
  - injection Heq as -> ->. now rewrite Z.eqb_refl.
  - inversion Hnd as [|? ? Hnotin Hnd']; subst.
    destruct (Z.eqb_spec k' k) as [->|Hne].
    + exfalso. apply Hnotin. apply in_map_iff. now exists (k, v).
    + now apply IH.
Qed.

Lemma get_set_same k v m : JsMap.get k (JsMap.set k v m) = Some v.
Proof.
  induction m as [|[k' v'] m IH]; simpl.
  - now rewrite Z.eqb_refl.
  - destruct (Z.eqb_spec k' k) as [->|Hne]; simpl.
    + now rewrite Z.eqb_refl.
    + destruct (Z.eqb_spec k' k); [contradiction | exact IH].
Qed.

Lemma get_set_other k k' v m :
  k <> k' -> JsMap.get k' (JsMap.set k v m) = JsMap.get k' m.
Proof.
  intros Hne. induction m as [|[k0 v0] m IH]; simpl.
  - destruct (Z.eqb_spec k k'); [contradiction | reflexivity].
  - destruct (Z.eqb_spec k0 k) as [->|Hne0]; simpl.
    + destruct (Z.eqb_spec k k'); [contradiction | reflexivity].
    + destruct (Z.eqb_spec k0 k'); [reflexivity | exact IH].
Qed.

(** [set] on a key the map does not hold appends one entry. *)
Lemma set_fresh k v m :
  ~ In k (JsMap.keys m) -> JsMap.set k v m = (m ++ [(k, v)])%list.
Proof.
  induction m as [|[k' v'] m IH]; simpl; intros Hnotin; [reflexivity|].
  destruct (Z.eqb_spec k' k) as [->|Hne].
  - exfalso. apply Hnotin. now left.
  - f_equal. apply IH. tauto.
Qed.

Lemma keys_set k v m :
  forall k', In k' (JsMap.keys (JsMap.set k v m)) <->
             k' = k \/ In k' (JsMap.keys m).
Proof.
  induction m as [|[k0 v0] m IH]; simpl; intros k'.
  - intuition.
  - destruct (Z.eqb_spec k0 k) as [->|Hne]; simpl.
    + intuition.
    + rewrite IH. intuition.
Qed.

Lemma wf_set k v m : JsMap.wf m -> JsMap.wf (JsMap.set k v m).
Proof.
  unfold JsMap.wf.
  induction m as [|[k0 v0] m IH]; simpl; intros Hnd.
  - repeat constructor. simpl. tauto.
  - inversion Hnd as [|? ? Hnotin Hnd']; subst.
    destruct (Z.eqb_spec k0 k) as [->|Hne]; simpl.
    + now constructor.
    + constructor; [|now apply IH].
      intros Hin. apply (keys_set k v m) in Hin as [->|Hin]; tauto.
Qed.

Lemma delete_In k m (e : Z * V) :
  In e (JsMap.delete k m) <-> In e m /\ fst e <> k.
Proof.
  unfold JsMap.delete. rewrite filter_In.
  destruct (Z.eqb_spec (fst e) k); simpl; intuition congruence.
Qed.

Lemma delete_absent k m : ~ In k (JsMap.keys m) -> JsMap.delete k m = m.
Proof.
  unfold JsMap.delete, JsMap.keys.
  induction m as [|[k' v'] m IH]; simpl; intros Hnotin; [reflexivity|].
  destruct (Z.eqb_spec k' k) as [->|Hne]; simpl.
  - exfalso. apply Hnotin. now left.
  - f_equal. apply IH. tauto.
Qed.

Lemma get_delete_same k m : JsMap.get k (JsMap.delete k m) = None.
Proof.
  apply get_None. unfold JsMap.keys. intros Hin.
  apply in_map_iff in Hin as (e & <- & He).
  apply delete_In in He. tauto.
Qed.

Lemma get_delete_other k k' m :
  k <> k' -> JsMap.get k' (JsMap.delete k m) = JsMap.get k' m.
Proof.
  intros Hne. unfold JsMap.delete.
  induction m as [|[k0 v0] m IH]; simpl; [reflexivity|].
  destruct (Z.eqb_spec k0 k) as [->|Hne0]; simpl.
  - destruct (Z.eqb_spec k k'); [contradiction | exact IH].
  - destruct (Z.eqb_spec k0 k'); [reflexivity | exact IH].
Qed.

(** The cascade loop, whatever the list: what is left was there before
    and does not satisfy the test. *)
Lemma deleteWhere_loop (p : V -> bool) (l : list (Z * V)) :
  forall acc : JsMap.t V,
    let out := fold_left
                 (fun acc e => if p (snd e) then JsMap.delete (fst e) acc else acc)
                 l acc in
    (forall e, In e out -> In e acc) /\
    (forall e, In e l -> p (snd e) = true -> forall e', In e' out -> fst e' <> fst e).
Proof.
  induction l as [|e0 l IH]; simpl; intros acc.
  - split; [tauto | contradiction].
  - destruct (IH (if p (snd e0) then JsMap.delete (fst e0) acc else acc))
      as [Hsub Hdel].
    split.
    + intros e He. apply Hsub in He.
      destruct (p (snd e0)); [apply delete_In in He; tauto | exact He].
    + intros e [<-|Hin] Hp e' He'.
      * apply Hsub in He'. rewrite Hp in He'. apply delete_In in He'. tauto.
      * eapply Hdel; eassumption.
Qed.

Lemma deleteWhere_In (p : V -> bool) m (e : Z * V) :
  In e (JsMap.deleteWhere p m) -> In e m /\ p (snd e) = false.
Proof.
  unfold JsMap.deleteWhere, JsMap.entries. intros He.
  destruct (deleteWhere_loop p m m) as [Hsub Hdel].
  split; [now apply Hsub|].
  destruct (p (snd e)) eqn:Hp; [|reflexivity].
  exfalso. eapply (Hdel e); eauto.
Qed.

(** On a [Map] the cascade loop is a filter: the entries that fail the
    test stay, unchanged and in their order. *)
Lemma deleteWhere_filter (p : V -> bool) m :
  JsMap.wf m ->
  JsMap.deleteWhere p m = filter (fun e => negb (p (snd e))) m.
Proof.
  unfold JsMap.deleteWhere, JsMap.entries, JsMap.wf.
  set (f := fun (acc : JsMap.t V) (e : Z * V) =>
              if p (snd e) then JsMap.delete (fst e) acc else acc).
  set (np := fun e : Z * V => negb (p (snd e))).
  intros Hnd.
  enough (forall rest pre,
             NoDup (JsMap.keys (pre ++ rest)) ->
             fold_left f rest (filter np pre ++ rest)%list
             = filter np (pre ++ rest)) as H
      by (apply (H m []); exact Hnd).
  induction rest as [|e rest IH]; intros pre Hpre.
  - simpl. now rewrite !app_nil_r.
  - simpl fold_left.
    assert (f (filter np pre ++ e :: rest)%list e
            = (filter np (pre ++ [e]) ++ rest)%list) as ->.
    { unfold f. rewrite filter_app. simpl.
      change (np e) with (negb (p (snd e))).
      destruct (p (snd e)) eqn:Hp; simpl.
      - rewrite app_nil_r.
        assert (~ In (fst e) (JsMap.keys (filter np pre ++ rest))) as Hnotin.
        { unfold JsMap.keys in *. rewrite map_app in Hpre. simpl in Hpre.
          apply NoDup_remove_2 in Hpre.
          intros Hin. apply Hpre. rewrite map_app in Hin.
          apply in_app_iff in Hin as [Hin|Hin]; apply in_app_iff;
            [left | now right].
          apply in_map_iff in Hin as (x & Hx & Hin).
          apply filter_In in Hin as [Hin _]. apply in_map_iff. now exists x. }
        rewrite <- (delete_absent (fst e) (filter np pre ++ rest) Hnotin).
        unfold JsMap.delete. rewrite !filter_app. simpl.
        now rewrite Z.eqb_refl.
      - now rewrite <- app_assoc. }
    rewrite IH; rewrite <- app_assoc; [reflexivity | exact Hpre].
Qed.

Lemma wf_filter (q : Z * V -> bool) m : JsMap.wf m -> JsMap.wf (filter q m).
Proof.
  unfold JsMap.wf, JsMap.keys.
  induction m as [|e m IH]; simpl; intros Hnd; [constructor|].
  inversion Hnd as [|? ? Hnotin Hnd']; subst.
  destruct (q e); simpl; [constructor|]; try now apply IH.
  intros Hin. apply Hnotin. apply in_map_iff in Hin as (x & Hx & Hin).
  apply filter_In in Hin as [Hin _]. apply in_map_iff. now exists x.
Qed.

End MapFacts.

(** * List facts used below *)

Lemma filter_perm {A : Type} (f : A -> bool) (l l' : list A) :
  Permutation l l' -> Permutation (filter f l) (filter f l').
Proof.
  induction 1 as [|x l l' Hp IH|x y l|l l' l'' Hp1 IH1 Hp2 IH2]; simpl.
  - constructor.
  - destruct (f x); [now constructor | exact IH].
  - destruct (f x), (f y); try apply Permutation_refl. apply perm_swap.
  - eapply perm_trans; eassumption.
Qed.

Lemma filter_none {A : Type} (f : A -> bool) (l : list A) :
  (forall x, In x l -> f x = false) -> filter f l = [].
Proof.
  induction l as [|x l IH]; simpl; intros H; [reflexivity|].
  rewrite (H x) by now left. apply IH. intros y Hy. apply H. now right.
Qed.

Lemma find_none_all {A : Type} (f : A -> bool) (l : list A) :
  (forall x, In x l -> f x = false) -> List.find f l = None.
Proof.
  intros H. destruct (List.find f l) as [x|] eqn:Hf; [|reflexivity].
  apply find_some in Hf as [Hin Hx]. rewrite (H x Hin) in Hx. discriminate.
Qed.

Lemma sorted_weaken {A : Type} (R R' : A -> A -> Prop) (l : list A) :
  (forall a b, R a b -> R' a b) -> StronglySorted R l -> StronglySorted R' l.
Proof.
  intros Himp. induction 1 as [|a l Hs IH Hall]; constructor; [exact IH|].
  eapply Forall_impl; [|exact Hall]. intros b. apply Himp.
Qed.

Lemma values_In {V : Type} (m : JsMap.t V) (v : V) :
  In v (JsMap.values m) <-> exists k, In (k, v) m.
Proof.
  unfold JsMap.values. rewrite in_map_iff. split.
  - intros ([k v'] & <- & Hin). now exists k.
  - intros (k & Hin). now exists (k, v).
Qed.

(** * The entity store *)

(** C4. For every store and every recording id, [getTranscriptByRecordingId]
    returns exactly the stored segments whose [recordingId] is that id (each
    as often as it is stored), in non-decreasing [timestamp] order; and the
    order in which the segments were inserted does not show: a store holding
    the same segment entries in another order yields the same sequence of
    timestamps and the same segments. *)
Theorem getTranscriptByRecordingId_sorted_exact
  (s : MemStorage.t) (recordingId : Z) :
  let out := MemStorage.getTranscriptByRecordingId recordingId s in
  StronglySorted
    (fun a b => Transcript.timestamp a <= Transcript.timestamp b) out /\
  Permutation out
    (filter (fun t => Transcript.recordingId t =? recordingId)
            (JsMap.values (MemStorage.transcripts s))) /\
  (forall t, In t out <->
             In t (JsMap.values (MemStorage.transcripts s)) /\
             Transcript.recordingId t = recordingId) /\
  (forall s',
      Permutation (MemStorage.transcripts s) (MemStorage.transcripts s') ->
      let out' := MemStorage.getTranscriptByRecordingId recordingId s' in
      map Transcript.timestamp out = map Transcript.timestamp out' /\
      Permutation out out').
Proof.
  unfold MemStorage.getTranscriptByRecordingId. cbv zeta.
  set (cmp := fun a b => Transcript.timestamp a - Transcript.timestamp b).
  set (mine := fun t => Transcript.recordingId t =? recordingId).
  assert (forall l, StronglySorted
                      (fun a b => Transcript.timestamp a <= Transcript.timestamp b)
                      (Js.sort cmp l)) as Hsorted
      by (intros l; apply sort_sorted; reflexivity).
  split; [apply Hsorted|].
  split; [apply sort_perm|].
  split.
  - intros t. rewrite sort_In, filter_In. unfold mine.
    now rewrite Z.eqb_eq.
  - intros s' Hperm.
    assert (Permutation
              (Js.sort cmp (filter mine (JsMap.values (MemStorage.transcripts s))))
              (Js.sort cmp (filter mine (JsMap.values (MemStorage.transcripts s')))))
      as Hout.
    { eapply perm_trans; [apply sort_perm|].
      eapply perm_trans; [|apply Permutation_sym, sort_perm].
      apply filter_perm. unfold JsMap.values. now apply Permutation_map. }
    split; [|exact Hout].
    apply sorted_perm_eq.
    + apply sorted_map, Hsorted.
    + apply sorted_map, Hsorted.
    + now apply Permutation_map.
Qed.

(** C8. For every store, [getAllRecordings] returns every stored recording
    (each exactly as often as it is stored) ordered by non-increasing
    creation time, newest first. *)
Theorem getAllRecordings_newest_first (s : MemStorage.t) :
  let out := MemStorage.getAllRecordings s in
  Permutation out (JsMap.values (MemStorage.recordings s)) /\
  (forall r, In r out <-> In r (JsMap.values (MemStorage.recordings s))) /\
  StronglySorted
    (fun a b => Recording.createdAt a >= Recording.createdAt b) out.
Proof.
  unfold MemStorage.getAllRecordings. cbv zeta.
  split; [apply sort_perm|].
  split; [intros r; apply sort_In|].
  eapply sorted_weaken;
    [| apply (sort_sorted _ (fun r => - Recording.createdAt r)) ].
  - cbv beta. intros a b H. lia.
  - intros a b. lia.
Qed.

(** C3. For every store and every id, after [deleteRecording] no recording
    is stored under that id and no stored segment, summary or chat message
    has that [recordingId]; hence every get and list operation of the store
    is free of it: looking the recording up finds nothing, listing its
    segments or chat messages gives the empty list, no summary of any type
    is found for it, the listing of all recordings holds only recordings
    kept under other keys, and a segment or summary fetched by its own id
    never refers to it. *)
Theorem deleteRecording_cascade (s : MemStorage.t) (id : Z) :
  let s' := MemStorage.deleteRecording id s in
  MemStorage.getRecording id s' = None /\
  ~ In id (JsMap.keys (MemStorage.recordings s')) /\
  (forall t, In t (JsMap.values (MemStorage.transcripts s')) ->
             Transcript.recordingId t <> id) /\
  (forall x, In x (JsMap.values (MemStorage.summaries s')) ->
             Summary.recordingId x <> id) /\
  (forall c, In c (JsMap.values (MemStorage.chatMessages s')) ->
             ChatMessage.recordingId c <> id) /\
  MemStorage.getTranscriptByRecordingId id s' = [] /\
  (forall type, MemStorage.getSummaryByType id type s' = None) /\
  MemStorage.getChatMessages id s' = [] /\
  (forall r, In r (MemStorage.getAllRecordings s') ->
             exists k, k <> id /\ In (k, r) (MemStorage.recordings s)) /\
  (forall k t, MemStorage.getTranscript k s' = Some t ->
               Transcript.recordingId t <> id) /\
  (forall k x, MemStorage.getSummary k s' = Some x ->
               Summary.recordingId x <> id).
Proof.
  cbv zeta.
  assert (forall t, In t (JsMap.values (MemStorage.transcripts
                                          (MemStorage.deleteRecording id s))) ->
                    Transcript.recordingId t <> id) as Ht.
  { intros t Hin. apply values_In in Hin as (k & Hin). simpl in Hin.
    apply deleteWhere_In in Hin as [_ Hp]. simpl in Hp.
    now apply Z.eqb_neq. }
  assert (forall x, In x (JsMap.values (MemStorage.summaries
                                          (MemStorage.deleteRecording id s))) ->
                    Summary.recordingId x <> id) as Hx.
  { intros x Hin. apply values_In in Hin as (k & Hin). simpl in Hin.
    apply deleteWhere_In in Hin as [_ Hp]. simpl in Hp.
    now apply Z.eqb_neq. }
  assert (forall c, In c (JsMap.values (MemStorage.chatMessages
                                          (MemStorage.deleteRecording id s))) ->
                    ChatMessage.recordingId c <> id) as Hc.
  { intros c Hin. apply values_In in Hin as (k & Hin). simpl in Hin.
    apply deleteWhere_In in Hin as [_ Hp]. simpl in Hp.
    now apply Z.eqb_neq. }
  split; [apply get_delete_same|].
  split; [apply get_None, get_delete_same|].
  split; [exact Ht|]. split; [exact Hx|]. split; [exact Hc|].
  split.
  { unfold MemStorage.getTranscriptByRecordingId.
    rewrite filter_none; [reflexivity|].
    intros t Hin. apply Z.eqb_neq. now apply Ht. }
  split.
  { intros type. unfold MemStorage.getSummaryByType, Js.find.
    apply find_none_all. intros x Hin. apply andb_false_iff. left.
    apply Z.eqb_neq. now apply Hx. }
  split.
  { unfold MemStorage.getChatMessages.
    rewrite filter_none; [reflexivity|].
    intros c Hin. apply Z.eqb_neq. now apply Hc. }
  split.
  { intros r Hin. unfold MemStorage.getAllRecordings in Hin.
    apply sort_In, values_In in Hin as (k & Hin). simpl in Hin.
    apply delete_In in Hin as [Hin Hk]. now exists k. }
  split.
  { intros k t Hget. apply Ht. apply values_In. exists k.
    now apply get_In. }
  { intros k x Hget. apply Hx. apply values_In. exists k.
    now apply get_In. }
Qed.

Lemma filter_all {A : Type} (f : A -> bool) (l : list A) :
  (forall x, In x l -> f x = true) -> filter f l = l.
Proof.
  induction l as [|x l IH]; simpl; intros H; [reflexivity|].
  rewrite (H x) by now left. f_equal. apply IH. intros y Hy. apply H. now right.
Qed.

(** Reading through a filter that keeps everything the reader selects. *)
Lemma filter_values_kept {V : Type} (f g : V -> bool) (m : JsMap.t V) :
  (forall v, f v = true -> g v = true) ->
  filter f (JsMap.values (filter (fun e => g (snd e)) m))
  = filter f (JsMap.values m).
Proof.
  intros Hfg. unfold JsMap.values.
  induction m as [|[k v] m IH]; simpl; [reflexivity|].
  destruct (g v) eqn:Hg; simpl.
  - now rewrite IH.
  - destruct (f v) eqn:Hf; [|exact IH].
    rewrite (Hfg v Hf) in Hg. discriminate.
Qed.

Lemma find_values_kept {V : Type} (f g : V -> bool) (m : JsMap.t V) :
  (forall v, f v = true -> g v = true) ->
  List.find f (JsMap.values (filter (fun e => g (snd e)) m))
  = List.find f (JsMap.values m).
Proof.
  intros Hfg. unfold JsMap.values.
  induction m as [|[k v] m IH]; simpl; [reflexivity|].
  destruct (g v) eqn:Hg; simpl.
  - now rewrite IH.
  - destruct (f v) eqn:Hf; [|exact IH].
    rewrite (Hfg v Hf) in Hg. discriminate.
Qed.

Lemma get_filter_kept {V : Type} (q : Z * V -> bool) (m : JsMap.t V) k v :
  JsMap.wf m -> JsMap.get k m = Some v -> q (k, v) = true ->
  JsMap.get k (filter q m) = Some v.
Proof.
  intros Hwf Hget Hq. apply In_get; [now apply wf_filter|].
  apply filter_In. split; [now apply get_In | exact Hq].
Qed.

Lemma neq_negb_eqb (a b : Z) : a <> b -> negb (a =? b) = true.
Proof. intros H. apply negb_true_iff. now apply Z.eqb_neq. Qed.

(** C10, as amended. For every store and every id, [deleteRecording] never
    throws and leaves alone everything that belongs elsewhere: recordings
    kept under other ids, and the segments, summaries and chat messages
    whose [recordingId] differs, stay in their maps unchanged and in their
    order, so every get and list operation for another recording answers
    as before; the id counters do not move.  When the store holds no
    recording under the id and no segment, summary or chat message refers
    to the id, the whole store is unchanged. *)
Theorem deleteRecording_frame (s : MemStorage.t) (id : Z) :
  store_ok s ->
  let s' := MemStorage.deleteRecording id s in
  (forall k, k <> id ->
             MemStorage.getRecording k s' = MemStorage.getRecording k s) /\
  MemStorage.recordings s'
  = filter (fun e => negb (fst e =? id)) (MemStorage.recordings s) /\
  MemStorage.transcripts s'
  = filter (fun e => negb (Transcript.recordingId (snd e) =? id))
           (MemStorage.transcripts s) /\
  MemStorage.summaries s'
  = filter (fun e => negb (Summary.recordingId (snd e) =? id))
           (MemStorage.summaries s) /\
  MemStorage.chatMessages s'
  = filter (fun e => negb (ChatMessage.recordingId (snd e) =? id))
           (MemStorage.chatMessages s) /\
  (forall k t, MemStorage.getTranscript k s = Some t ->
               Transcript.recordingId t <> id ->
               MemStorage.getTranscript k s' = Some t) /\
  (forall k x, MemStorage.getSummary k s = Some x ->
               Summary.recordingId x <> id ->
               MemStorage.getSummary k s' = Some x) /\
  (forall other, other <> id ->
     MemStorage.getTranscriptByRecordingId other s'
     = MemStorage.getTranscriptByRecordingId other s /\
     MemStorage.getChatMessages other s' = MemStorage.getChatMessages other s /\
     forall type, MemStorage.getSummaryByType other type s'
                  = MemStorage.getSummaryByType other type s) /\
  (MemStorage.recordingIdCounter s' = MemStorage.recordingIdCounter s /\
   MemStorage.transcriptIdCounter s' = MemStorage.transcriptIdCounter s /\
   MemStorage.summaryIdCounter s' = MemStorage.summaryIdCounter s /\
   MemStorage.chatMessageIdCounter s' = MemStorage.chatMessageIdCounter s) /\
  (MemStorage.getRecording id s = None ->
   (forall t, In t (JsMap.values (MemStorage.transcripts s)) ->
              Transcript.recordingId t <> id) ->
   (forall x, In x (JsMap.values (MemStorage.summaries s)) ->
              Summary.recordingId x <> id) ->
   (forall c, In c (JsMap.values (MemStorage.chatMessages s)) ->
              ChatMessage.recordingId c <> id) ->
   s' = s).
Proof.
  intros ((Hr & Ht & Hx & Hc) & _). cbv zeta.
  assert (MemStorage.transcripts (MemStorage.deleteRecording id s)
          = filter (fun e => negb (Transcript.recordingId (snd e) =? id))
                   (MemStorage.transcripts s)) as Et
      by (simpl; now apply (deleteWhere_filter (fun v => Transcript.recordingId v =? id))).
  assert (MemStorage.summaries (MemStorage.deleteRecording id s)
          = filter (fun e => negb (Summary.recordingId (snd e) =? id))
                   (MemStorage.summaries s)) as Ex
      by (simpl; now apply (deleteWhere_filter (fun v => Summary.recordingId v =? id))).
  assert (MemStorage.chatMessages (MemStorage.deleteRecording id s)
          = filter (fun e => negb (ChatMessage.recordingId (snd e) =? id))
                   (MemStorage.chatMessages s)) as Ec
      by (simpl; now apply (deleteWhere_filter (fun v => ChatMessage.recordingId v =? id))).
  split.
  { intros k Hk. apply get_delete_other. congruence. }
  split; [reflexivity|].
  split; [exact Et|]. split; [exact Ex|]. split; [exact Ec|].
  split.
  { intros k t Hget Hne. unfold MemStorage.getTranscript. rewrite Et.
    apply get_filter_kept; try assumption. simpl. now apply neq_negb_eqb. }
  split.
  { intros k x Hget Hne. unfold MemStorage.getSummary. rewrite Ex.
    apply get_filter_kept; try assumption. simpl. now apply neq_negb_eqb. }
  split.
  { intros other Hne.
    unfold MemStorage.getTranscriptByRecordingId, MemStorage.getChatMessages,
      MemStorage.getSummaryByType, Js.find.
    rewrite Et, Ex, Ec.
    split; [|split; [|intros type]].
    - f_equal.
      apply (filter_values_kept
               (fun t => Transcript.recordingId t =? other)
               (fun t => negb (Transcript.recordingId t =? id))).
      intros v Hv. apply Z.eqb_eq in Hv. apply neq_negb_eqb. congruence.
    - f_equal.
      apply (filter_values_kept
               (fun c => ChatMessage.recordingId c =? other)
               (fun c => negb (ChatMessage.recordingId c =? id))).
      intros v Hv. apply Z.eqb_eq in Hv. apply neq_negb_eqb. congruence.
    - apply (find_values_kept
               (fun x => (Summary.recordingId x =? other)
                         && String.eqb (Summary.type x) type)
               (fun x => negb (Summary.recordingId x =? id))).
      intros v Hv. apply andb_true_iff in Hv as [Hv _].
      apply Z.eqb_eq in Hv. apply neq_negb_eqb. congruence. }
  split; [simpl; tauto|].
  intros Hnone Hnt Hnx Hnc.
  assert (MemStorage.recordings (MemStorage.deleteRecording id s)
          = MemStorage.recordings s) as Er'
      by (simpl; apply delete_absent; now apply get_None).
  assert (MemStorage.transcripts (MemStorage.deleteRecording id s)
          = MemStorage.transcripts s) as Et'.
  { rewrite Et. apply filter_all. intros [k t] Hin. simpl.
    apply neq_negb_eqb, Hnt. apply values_In. now exists k. }
  assert (MemStorage.summaries (MemStorage.deleteRecording id s)
          = MemStorage.summaries s) as Ex'.
  { rewrite Ex. apply filter_all. intros [k x] Hin. simpl.
    apply neq_negb_eqb, Hnx. apply values_In. now exists k. }
  assert (MemStorage.chatMessages (MemStorage.deleteRecording id s)
          = MemStorage.chatMessages s) as Ec'.
  { rewrite Ec. apply filter_all. intros [k c] Hin. simpl.
    apply neq_negb_eqb, Hnc. apply values_In. now exists k. }
  destruct s as [rs ts xs cs c1 c2 c3 c4]. simpl in *.
  unfold MemStorage.deleteRecording. simpl.
  now rewrite Er', Et', Ex', Ec'.
Qed.

(** Closed stores: the invariant is checked entry by entry. *)
Ltac concrete_store_ok :=
  unfold store_ok, MemStorage.wf, JsMap.wf, below; simpl;
  repeat match goal with
         | |- _ /\ _ => split
         | |- NoDup _ => constructor
         | |- Forall _ _ => constructor
         | |- ~ _ => simpl; intuition discriminate
         | |- _ < _ => reflexivity
         end.

Lemma orphanStore_ok : store_ok orphanStore.
Proof. concrete_store_ok. Qed.

Lemma sampleStore_ok : store_ok sampleStore.
Proof. concrete_store_ok. Qed.

(** C10, the claim as stated fails: the store built by one [createSummary]
    for recording id 7 holds no recording 7, yet [deleteRecording 7]
    removes that summary, so the store does not stay unchanged. *)
Lemma deleteRecording_absent_id_removes_orphans :
  orphanStore
  = snd (MemStorage.createSummary
           (Summary.mkInsert 7 "general"%string (Some "notes"%string))
           MemStorage.new) /\
  store_ok orphanStore /\
  MemStorage.getRecording 7 orphanStore = None /\
  MemStorage.summaries orphanStore
  = [(1, Summary.mk 1 7 "general"%string (Some "notes"%string))] /\
  MemStorage.summaries (MemStorage.deleteRecording 7 orphanStore) = [] /\
  MemStorage.deleteRecording 7 orphanStore <> orphanStore.
Proof.
  split; [reflexivity|].
  split; [exact orphanStore_ok|].
  split; [reflexivity|].
  split; [reflexivity|].
  split; [reflexivity|].
  intros H. apply (f_equal MemStorage.summaries) in H. discriminate H.
Qed.

Lemma deleteRecording_frame_witness :
  store_ok sampleStore /\
  MemStorage.getRecording 2 (MemStorage.deleteRecording 1 sampleStore)
  = MemStorage.getRecording 2 sampleStore /\
  MemStorage.deleteRecording 3 sampleStore = sampleStore.
Proof.
  split; [exact sampleStore_ok|].
  split.
  - destruct (deleteRecording_frame sampleStore 1 sampleStore_ok) as (Hk & _).
    apply Hk. discriminate.
  - destruct (deleteRecording_frame sampleStore 3 sampleStore_ok)
      as (_ & _ & _ & _ & _ & _ & _ & _ & _ & Hsame).
    apply Hsame.
    + reflexivity.
    + simpl. intuition (subst; discriminate).
    + simpl. intuition (subst; discriminate).
    + simpl. intuition (subst; discriminate).
Defined.

(** * The handlers *)

(** C2. The status handler answers from the two flags alone: for every
    world and every id under which a recording is stored it answers 200
    with progress 100 and "Completed" when [transcribed] is set, with 75 and
    "Generating insights" when only [processed] is set, and with 25 and
    "Transcribing audio" when neither is set, and leaves the world as it
    was; no other progress or label is produced for a stored recording. *)
Theorem getStatus_projection (w : World) (id : Z) (r : Recording.t) :
  MemStorage.getRecording id (storage w) = Some r ->
  getStatus id w
  = (Ok (json (if Recording.transcribed r then
                 JsonStatus 100 "Completed"
               else if Recording.processed r then
                 JsonStatus 75 "Generating insights"
               else
                 JsonStatus 25 "Transcribing audio")),
     w).
Proof.
  intros Hget.
  unfold getStatus, try_catch, bind, getRecording, storage_read.
  rewrite Hget.
  destruct (Recording.transcribed r), (Recording.processed r); reflexivity.
Qed.

Lemma getStatus_projection_witness :
  MemStorage.getRecording 1 (storage uploadedWorld) = Some uploaded /\
  getStatus 1 uploadedWorld
  = (Ok (json (JsonStatus 25 "Transcribing audio")), uploadedWorld).
Proof.
  split; [reflexivity|].
  exact (getStatus_projection uploadedWorld 1 uploaded eq_refl).
Defined.

(** C7. For every world, every id under which a recording is stored while
    no stored segment has that [recordingId], and every message that is
    provided, the chat handler answers 404 "Transcript not found" and leaves
    the world as it was: no chat message of either role is created and no
    completion is requested. *)
Theorem postChat_without_transcript
  (env : Env) (w : World) (id : Z) (message : option string)
  (r : Recording.t) :
  Js.truthy message = true ->
  MemStorage.getRecording id (storage w) = Some r ->
  (forall t, In t (JsMap.values (MemStorage.transcripts (storage w))) ->
             Transcript.recordingId t <> id) ->
  postChat env id message w
  = (Ok (mkResponse 404 (JsonMessage "Transcript not found" None)), w).
Proof.
  intros Hmsg Hget Hnone.
  unfold postChat, try_catch, bind, getRecording, getTranscriptByRecordingId,
    storage_read.
  rewrite Hmsg. simpl. rewrite Hget.
  unfold MemStorage.getTranscriptByRecordingId.
  rewrite filter_none; [reflexivity|].
  intros t Hin. apply Z.eqb_neq. now apply Hnone.
Qed.

Lemma postChat_without_transcript_witness :
  Js.truthy (Some "Who spoke?"%string) = true /\
  MemStorage.getRecording 1 (storage uploadedWorld) = Some uploaded /\
  MemStorage.chatMessages (storage uploadedWorld) = [] /\
  postChat sampleEnv 1 (Some "Who spoke?"%string) uploadedWorld
  = (Ok (mkResponse 404 (JsonMessage "Transcript not found" None)),
     uploadedWorld).
Proof.
  split; [reflexivity|].
  split; [reflexivity|].
  split; [reflexivity|].
  apply (postChat_without_transcript sampleEnv uploadedWorld 1
           (Some "Who spoke?"%string) uploaded); try reflexivity.
  simpl. intros t [].
Defined.

(** * The pipeline *)

Lemma bind_ok {A B : Type} (c : M A) (k : A -> M B) (w w' : World) (a : A) :
  c w = (Ok a, w') -> bind c k w = k a w'.
Proof. unfold bind. now intros ->. Qed.

Lemma bind_throw {A B : Type} (c : M A) (k : A -> M B) (w w' : World) e :
  c w = (Throw e, w') -> bind c k w = (Throw e, w').
Proof. unfold bind. now intros ->. Qed.

Lemma updateRecording_present (id : Z) (u : Recording.partial) (w : World)
  (r0 : Recording.t) :
  MemStorage.getRecording id (storage w) = Some r0 ->
  updateRecording id u w
  = (Ok (Recording.merge r0 u),
     with_storage
       (MemStorage.put_recordings
          (JsMap.set id (Recording.merge r0 u)
                     (MemStorage.recordings (storage w)))
          (MemStorage.recordingIdCounter (storage w)) (storage w)) w).
Proof.
  unfold MemStorage.getRecording, updateRecording, storage_try,
    MemStorage.updateRecording.
  now intros ->.
Qed.

Lemma updateRecording_absent (id : Z) (u : Recording.partial) (w : World) :
  MemStorage.getRecording id (storage w) = None ->
  updateRecording id u w = (Throw (MemStorage.notFound id), w).
Proof.
  unfold MemStorage.getRecording, updateRecording, storage_try,
    MemStorage.updateRecording.
  intros ->. destruct w; reflexivity.
Qed.

(** Persisting segments touches nothing but the segment map and its
    counter, and cannot fail. *)
Lemma forEach_createTranscript (rid : Z) (segments : list OpenAI.Segment) :
  forall w, exists w',
    forEach segments (fun segment =>
      createTranscript
        (Transcript.mkInsert rid "Speaker"
           (Js.Math_round (OpenAI.start segment)) (OpenAI.text segment)) ;;;
      ret tt)%js w = (Ok tt, w') /\
    MemStorage.recordings (storage w') = MemStorage.recordings (storage w).
Proof.
  induction segments as [|segment segments IH]; intros w; cbn [forEach].
  - exists w. split; reflexivity.
  - set (ins := Transcript.mkInsert rid "Speaker"
                  (Js.Math_round (OpenAI.start segment)) (OpenAI.text segment)).
    set (w1 := with_storage (snd (MemStorage.createTranscript ins (storage w))) w).
    assert ((createTranscript ins ;;; ret tt)%js w = (Ok tt, w1)) as Hstep
        by reflexivity.
    rewrite (bind_ok _ _ w w1 tt Hstep).
    destruct (IH w1) as (w' & Hrun & Hrec).
    exists w'. split; [exact Hrun|]. rewrite Hrec. reflexivity.
Qed.

Lemma present_after_update (id : Z) (r : Recording.t) (w : World) :
  MemStorage.getRecording id
    (storage
       (with_storage
          (MemStorage.put_recordings
             (JsMap.set id r (MemStorage.recordings (storage w)))
             (MemStorage.recordingIdCounter (storage w)) (storage w)) w))
  = Some r.
Proof. unfold MemStorage.getRecording. simpl. apply get_set_same. Qed.

(** The first update of the [try] block, whichever branch the duration
    test takes, is one [updateRecording] on the recording's id. *)
Lemma first_update_shape (recording : Recording.t) (d : Z) :
  exists u,
    (if Recording.duration recording =? 0 then
       updateRecording (Recording.id recording)
         (Recording.with_processed true
            (Recording.with_duration d (Recording.spread recording)))
     else
       updateRecording (Recording.id recording)
         (Recording.with_processed true (Recording.spread recording)))
    = updateRecording (Recording.id recording) u /\
    Recording.p_processed u = Some true /\
    Recording.p_transcribed u = Some (Recording.transcribed recording).
Proof.
  destruct (Recording.duration recording =? 0); eexists; split;
    try reflexivity; split; reflexivity.
Qed.

Lemma try_succeeds env w recording r0 bytes transcription :
  MemStorage.getRecording (Recording.id recording) (storage w) = Some r0 ->
  readFile env (Recording.filename recording) = Ok bytes ->
  transcribe env (Recording.filename recording) bytes = Ok transcription ->
  exists w', processRecording_try env recording w = (Ok tt, w') /\
     MemStorage.getRecording (Recording.id recording) (storage w')
     = Some (Recording.mk (Recording.id recording) (Recording.title recording)
               (Recording.filename recording) (Recording.duration recording)
               (Recording.processed recording) true (Recording.createdAt recording)).
Proof.
  intros Hget Hread Htr.
  unfold processRecording_try.
  unfold bind at 1, fs_readFile. rewrite Hread.
  unfold bind at 1, transcriptions_create. rewrite Htr.
  destruct (first_update_shape recording
              (Js.Math_round (Js.orZero (OpenAI.t_duration transcription))))
    as (u & -> & _).
  rewrite (bind_ok _ _ _ _ _ (updateRecording_present _ u w r0 Hget)).
  match goal with |- context [bind _ _ ?w1] => set (wa := w1) end.
  assert (MemStorage.getRecording (Recording.id recording) (storage wa)
          = Some (Recording.merge r0 u)) as Hga
      by apply present_after_update.
  destruct (OpenAI.t_segments transcription) as [segments|].
  - destruct (forEach_createTranscript (Recording.id recording) segments wa)
      as (wb & Hrun & Hrec).
    assert (MemStorage.getRecording (Recording.id recording) (storage wb)
            = Some (Recording.merge r0 u)) as Hgb
        by (unfold MemStorage.getRecording in *; now rewrite Hrec).
    eexists. split.
    + erewrite bind_ok; [reflexivity|].
      erewrite bind_ok; [|exact Hrun].
      erewrite bind_ok; [reflexivity|].
      apply updateRecording_present. exact Hgb.
    + unfold dispatch. cbn [storage]. apply present_after_update.
  - eexists. split.
    + erewrite bind_ok; [reflexivity|].
      erewrite bind_ok; [|reflexivity].
      erewrite bind_ok; [reflexivity|].
      apply updateRecording_present. exact Hga.
    + unfold dispatch. cbn [storage].
      apply present_after_update.
Qed.

Lemma try_throws_early env w recording r0 e w1 :
  MemStorage.getRecording (Recording.id recording) (storage w) = Some r0 ->
  processRecording_try env recording w = (Throw e, w1) ->
  w1 = w /\
  (readFile env (Recording.filename recording) = Throw e \/
   exists bytes,
     readFile env (Recording.filename recording) = Ok bytes /\
     transcribe env (Recording.filename recording) bytes = Throw e).
Proof.
  intros Hget Hthrow.
  destruct (readFile env (Recording.filename recording)) as [bytes|e1] eqn:Hread.
  - destruct (transcribe env (Recording.filename recording) bytes)
      as [transcription|e2] eqn:Htr.
    + destruct (try_succeeds env w recording r0 bytes transcription Hget Hread Htr)
        as (w' & Hrun & _).
      rewrite Hrun in Hthrow. discriminate.
    + unfold processRecording_try, bind, fs_readFile, transcriptions_create
        in Hthrow.
      rewrite Hread, Htr in Hthrow. injection Hthrow as <- <-.
      split; [reflexivity|]. right. now exists bytes.
  - unfold processRecording_try, bind, fs_readFile in Hthrow.
    rewrite Hread in Hthrow. injection Hthrow as <- <-.
    split; [reflexivity|]. now left.
Qed.

Lemma transcription_throw env w recording bytes e :
  readFile env (Recording.filename recording) = Ok bytes ->
  transcribe env (Recording.filename recording) bytes = Throw e ->
  processRecording_try env recording w = (Throw e, w).
Proof.
  intros Hread Htr.
  unfold processRecording_try, bind, fs_readFile, transcriptions_create.
  now rewrite Hread, Htr.
Qed.

(** C5. For every world in which a recording is stored under the id of the
    recording handed to the pipeline: whenever the [try] block throws, at
    whatever step, [processRecording] catches the exception, stores the
    recording with [processed] and [transcribed] both set, and completes
    without an error for its caller; the segment map is left as it was.
    In particular, when the file is read and the transcription call throws,
    the [try] block throws with the store untouched, so the recording ends
    with both flags set and, having had no segment before, has none. *)
Theorem processRecording_error_path
  (env : Env) (w : World) (recording r0 : Recording.t) :
  MemStorage.getRecording (Recording.id recording) (storage w) = Some r0 ->
  let terminal :=
    exists w2 r2,
      processRecording env recording w = (Ok tt, w2) /\
      MemStorage.getRecording (Recording.id recording) (storage w2) = Some r2 /\
      Recording.processed r2 = true /\
      Recording.transcribed r2 = true /\
      MemStorage.transcripts (storage w2) = MemStorage.transcripts (storage w) /\
      ((forall t, In t (JsMap.values (MemStorage.transcripts (storage w))) ->
                  Transcript.recordingId t <> Recording.id recording) ->
       MemStorage.getTranscriptByRecordingId (Recording.id recording) (storage w2)
       = []) in
  (forall e w1, processRecording_try env recording w = (Throw e, w1) -> terminal) /\
  (forall bytes e,
      readFile env (Recording.filename recording) = Ok bytes ->
      transcribe env (Recording.filename recording) bytes = Throw e ->
      processRecording_try env recording w = (Throw e, w) /\ terminal).
Proof.
  intros Hget terminal.
  assert (forall e w1,
             processRecording_try env recording w = (Throw e, w1) -> terminal)
    as Hany.
  { intros e w1 Hthrow.
    destruct (try_throws_early env w recording r0 e w1 Hget Hthrow) as [-> _].
    unfold terminal, processRecording, try_catch. rewrite Hthrow.
    unfold processRecording_catch.
    eexists. eexists. split.
    - erewrite bind_ok; [reflexivity|].
      apply updateRecording_present. exact Hget.
    - split; [apply present_after_update|].
      split; [reflexivity|]. split; [reflexivity|].
      split; [reflexivity|].
      intros Hnone. unfold MemStorage.getTranscriptByRecordingId. cbn [storage with_storage MemStorage.transcripts MemStorage.put_recordings].
      rewrite filter_none; [reflexivity|].
      intros t Hin. apply Z.eqb_neq. now apply Hnone. }
  split; [exact Hany|].
  intros bytes e Hread Htr.
  pose proof (transcription_throw env w recording bytes e Hread Htr) as Hthrow.
  split; [exact Hthrow|]. exact (Hany e w Hthrow).
Qed.

Lemma processRecording_error_path_witness :
  MemStorage.getRecording 1 (storage uploadedWorld) = Some uploaded /\
  exists w2 r2,
    processRecording failingEnv uploaded uploadedWorld = (Ok tt, w2) /\
    MemStorage.getRecording 1 (storage w2) = Some r2 /\
    Recording.processed r2 = true /\
    Recording.transcribed r2 = true /\
    MemStorage.getTranscriptByRecordingId 1 (storage w2) = [].
Proof.
  split; [reflexivity|].
  destruct (processRecording_error_path failingEnv uploadedWorld uploaded
              uploaded eq_refl) as [_ Hparticular].
  destruct (Hparticular [] "429 quota exceeded"%string eq_refl eq_refl)
    as (_ & w2 & r2 & Hrun & Hget & Hp & Ht & _ & Hzero).
  exists w2, r2. repeat split; try assumption.
  apply Hzero. simpl. intros t [].
Defined.

(** Whenever the file is read and the transcription returns, the pipeline
    completes and the recording it leaves in the store carries the flag
    values and the duration of the object it was handed, with only
    [transcribed] set: the second update spreads that object again and so
    undoes what the first update wrote. *)
Lemma processRecording_success_state
  (env : Env) (w : World) (recording r0 : Recording.t)
  (bytes : list Byte.byte) (transcription : OpenAI.Transcription) :
  MemStorage.getRecording (Recording.id recording) (storage w) = Some r0 ->
  readFile env (Recording.filename recording) = Ok bytes ->
  transcribe env (Recording.filename recording) bytes = Ok transcription ->
  exists w',
    processRecording env recording w = (Ok tt, w') /\
    MemStorage.getRecording (Recording.id recording) (storage w')
    = Some (Recording.mk (Recording.id recording) (Recording.title recording)
              (Recording.filename recording) (Recording.duration recording)
              (Recording.processed recording) true
              (Recording.createdAt recording)).
Proof.
  intros Hget Hread Htr.
  destruct (try_succeeds env w recording r0 bytes transcription Hget Hread Htr)
    as (w' & Hrun & Hstate).
  exists w'. split; [|exact Hstate].
  unfold processRecording, try_catch. now rewrite Hrun.
Qed.

(** C1, the code at a failing input: the recorder uploads a file, the
    upload handler creates recording 1 with both flags unset, the file is
    read and the transcription returns two segments and a duration
    estimate.  When the pipeline has completed, the stored recording has
    [transcribed] set and [processed] unset (and its duration is still 0). *)
Theorem processRecording_success_unsets_processed :
  createRecording sampleEnv sampleInsert initialWorld
  = (Ok uploaded, uploadedWorld) /\
  processRecording sampleEnv uploaded uploadedWorld = (Ok tt, processedWorld) /\
  MemStorage.getRecording 1 (storage processedWorld)
  = Some (Recording.mk 1 "standup" "1700000000000-42.wav" 0
                       false true 1700000000000) /\
  getStatus 1 processedWorld
  = (Ok (json (JsonStatus 100 "Completed")), processedWorld).
Proof.
  repeat split; reflexivity.
Qed.

Lemma fresh_key {V : Type} (counter : Z) (m : JsMap.t V) :
  below counter m -> ~ In counter (JsMap.keys m).
Proof.
  unfold below. rewrite Forall_forall. intros H Hin.
  specialize (H _ Hin). lia.
Qed.

(** C6, as amended. For every pipeline run on a recording that is in the
    store, in which the file is read and the transcription returns without
    a segment list, the pipeline completes and persists exactly one new
    segment: it is appended under the next segment id, belongs to the
    recording, has timestamp 0 and speaker "Speaker", and its text is the
    whole-text result, or the fixed string "Unable to transcribe audio
    content" when that text is absent or empty.  If the recording had no
    segment before, this is its only segment. *)
Theorem processRecording_fallback_segment
  (env : Env) (w : World) (recording r0 : Recording.t)
  (bytes : list Byte.byte) (transcription : OpenAI.Transcription) :
  store_ok (storage w) ->
  MemStorage.getRecording (Recording.id recording) (storage w) = Some r0 ->
  readFile env (Recording.filename recording) = Ok bytes ->
  transcribe env (Recording.filename recording) bytes = Ok transcription ->
  OpenAI.t_segments transcription = None ->
  let segment :=
    Transcript.mk (MemStorage.transcriptIdCounter (storage w))
      (Recording.id recording) "Speaker" 0
      (match OpenAI.t_text transcription with
       | None => "Unable to transcribe audio content"%string
       | Some EmptyString => "Unable to transcribe audio content"%string
       | Some whole => whole
       end) in
  exists w',
    processRecording env recording w = (Ok tt, w') /\
    MemStorage.transcripts (storage w')
    = (MemStorage.transcripts (storage w)
         ++ [(MemStorage.transcriptIdCounter (storage w), segment)])%list /\
    ((forall t, In t (JsMap.values (MemStorage.transcripts (storage w))) ->
                Transcript.recordingId t <> Recording.id recording) ->
     MemStorage.getTranscriptByRecordingId (Recording.id recording) (storage w')
     = [segment]).
Proof.
  intros Hok Hget Hread Htr Hseg segment.
  destruct (first_update_shape recording
              (Js.Math_round (Js.orZero (OpenAI.t_duration transcription))))
    as (u & Hu & _).
  assert (exists w',
             processRecording env recording w = (Ok tt, w') /\
             MemStorage.transcripts (storage w')
             = JsMap.set (MemStorage.transcriptIdCounter (storage w)) segment
                         (MemStorage.transcripts (storage w)))
    as (w' & Hrun & Htrs).
  { unfold processRecording, try_catch, processRecording_try.
    unfold bind at 1, fs_readFile. rewrite Hread.
    unfold bind at 1, transcriptions_create. rewrite Htr, Hseg, Hu.
    rewrite (bind_ok _ _ _ _ _ (updateRecording_present _ u w r0 Hget)).
    eexists. split.
    - erewrite bind_ok; [reflexivity|].
      erewrite bind_ok; [|reflexivity].
      erewrite bind_ok; [reflexivity|].
      apply updateRecording_present. apply present_after_update.
    - reflexivity. }
  exists w'. split; [exact Hrun|].
  assert (MemStorage.transcripts (storage w')
          = (MemStorage.transcripts (storage w)
               ++ [(MemStorage.transcriptIdCounter (storage w), segment)])%list)
    as Happ.
  { rewrite Htrs. apply set_fresh. apply fresh_key. apply Hok. }
  split; [exact Happ|].
  intros Hnone. unfold MemStorage.getTranscriptByRecordingId.
  rewrite Happ. unfold JsMap.values. rewrite map_app, filter_app.
  rewrite filter_none.
  - simpl. now rewrite Z.eqb_refl.
  - intros t Hin. apply Z.eqb_neq. now apply Hnone.
Qed.

(** Why the recording has to be in the store: once it is gone, the first
    update throws, the update of the [catch] block throws again, and the
    pipeline rejects without having stored a segment. *)
Lemma processRecording_absent_rejects
  (env : Env) (w : World) (recording : Recording.t)
  (bytes : list Byte.byte) (transcription : OpenAI.Transcription) :
  MemStorage.getRecording (Recording.id recording) (storage w) = None ->
  readFile env (Recording.filename recording) = Ok bytes ->
  transcribe env (Recording.filename recording) bytes = Ok transcription ->
  processRecording env recording w
  = (Throw (MemStorage.notFound (Recording.id recording)), w).
Proof.
  intros Hnone Hread Htr.
  destruct (first_update_shape recording
              (Js.Math_round (Js.orZero (OpenAI.t_duration transcription))))
    as (u & Hu & _).
  unfold processRecording, try_catch, processRecording_try.
  unfold bind at 1, fs_readFile. rewrite Hread.
  unfold bind at 1, transcriptions_create. rewrite Htr, Hu.
  rewrite (bind_throw _ _ _ _ _ (updateRecording_absent _ u w Hnone)).
  unfold processRecording_catch.
  apply bind_throw. now apply updateRecording_absent.
Qed.

Lemma uploadedWorld_ok : store_ok (storage uploadedWorld).
Proof. concrete_store_ok. Qed.

Lemma processedWorld_ok : store_ok (storage processedWorld).
Proof. concrete_store_ok. Qed.

Lemma processRecording_fallback_segment_witness :
  store_ok (storage uploadedWorld) /\
  MemStorage.getRecording 1 (storage uploadedWorld) = Some uploaded /\
  exists w',
    processRecording fallbackEnv uploaded uploadedWorld = (Ok tt, w') /\
    MemStorage.getTranscriptByRecordingId 1 (storage w')
    = [Transcript.mk 1 1 "Speaker" 0 "hello there"].
Proof.
  split; [exact uploadedWorld_ok|].
  split; [reflexivity|].
  destruct (processRecording_fallback_segment fallbackEnv uploadedWorld
              uploaded uploaded []
              (OpenAI.mkTranscription (Some "hello there"%string) None None)
              uploadedWorld_ok eq_refl eq_refl eq_refl eq_refl)
    as (w' & Hrun & _ & Honly).
  exists w'. split; [exact Hrun|].
  apply Honly. simpl. intros t [].
Defined.

(** C6, the claim as stated fails: when the transcription comes back
    without segments and with the empty string as its text, that text is
    not absent, yet the persisted segment does not carry it: it carries
    the fixed fallback string. *)
Lemma fallback_replaces_empty_text :
  transcribe emptyTextEnv (Recording.filename uploaded) []
  = Ok (OpenAI.mkTranscription (Some EmptyString) None None) /\
  fst (processRecording emptyTextEnv uploaded uploadedWorld) = Ok tt /\
  JsMap.values
    (MemStorage.transcripts
       (storage (snd (processRecording emptyTextEnv uploaded uploadedWorld))))
  = [Transcript.mk 1 1 "Speaker" 0 "Unable to transcribe audio content"] /\
  described_fallback_text (Some EmptyString) = EmptyString /\
  map Transcript.text
    (JsMap.values
       (MemStorage.transcripts
          (storage (snd (processRecording emptyTextEnv uploaded uploadedWorld)))))
  <> [described_fallback_text (Some EmptyString)].
Proof.
  repeat split; try reflexivity.
  intros H. vm_compute in H. discriminate H.
Qed.

Lemma find_app {A : Type} (f : A -> bool) (l1 l2 : list A) :
  List.find f l1 = None -> List.find f (l1 ++ l2) = List.find f l2.
Proof.
  induction l1 as [|x l1 IH]; simpl; [reflexivity|].
  destruct (f x); [discriminate | exact IH].
Qed.

(** C9. For every world whose store holds a recording under the id, at
    least one segment of that recording and no summary row for the pair
    (id, type), and in which the text-generation call returns: the summary
    handler requests exactly one completion (the request [generateSummary]
    builds from the type and the transcript text), appends exactly one new
    summary row, for that recording and type, under the next summary id and
    with the returned content, and answers 200 with the content of that
    row; afterwards that row is what [getSummaryByType] finds for the pair.
    Recordings, segments and chat messages are not touched. *)
Theorem getSummary_generates_once
  (env : Env) (w : World) (id : Z) (type : string)
  (r : Recording.t) (t : Transcript.t) (content : option string) :
  store_ok (storage w) ->
  MemStorage.getRecording id (storage w) = Some r ->
  In t (JsMap.values (MemStorage.transcripts (storage w))) ->
  Transcript.recordingId t = id ->
  (forall x, In x (JsMap.values (MemStorage.summaries (storage w))) ->
             ~ (Summary.recordingId x = id /\ Summary.type x = type)) ->
  let transcriptText :=
    Js.join blankLine
      (map storedLine (MemStorage.getTranscriptByRecordingId id (storage w))) in
  complete env (List.length (completions w)) (summaryRequest type transcriptText)
  = Ok content ->
  let row := Summary.mk (MemStorage.summaryIdCounter (storage w)) id type content in
  exists w',
    getSummary env id type w = (Ok (json (JsonContent (Summary.content row))), w') /\
    completions w' = (completions w ++ [summaryRequest type transcriptText])%list /\
    MemStorage.summaries (storage w')
    = (MemStorage.summaries (storage w)
         ++ [(MemStorage.summaryIdCounter (storage w), row)])%list /\
    MemStorage.getSummaryByType id type (storage w') = Some row /\
    MemStorage.recordings (storage w') = MemStorage.recordings (storage w) /\
    MemStorage.transcripts (storage w') = MemStorage.transcripts (storage w) /\
    MemStorage.chatMessages (storage w') = MemStorage.chatMessages (storage w).
Proof.
  intros Hok Hget Hin Hrid Hnone transcriptText Hllm row.
  assert (List.find
            (fun summary => (Summary.recordingId summary =? id)
                            && String.eqb (Summary.type summary) type)
            (JsMap.values (MemStorage.summaries (storage w))) = None) as Hfind.
  { apply find_none_all. intros x Hx. apply andb_false_iff.
    destruct (Z.eqb_spec (Summary.recordingId x) id) as [Hi|]; [|now left].
    right. apply String.eqb_neq. intros Hty. now apply (Hnone x Hx). }
  assert (exists t0 ts,
             MemStorage.getTranscriptByRecordingId id (storage w) = t0 :: ts)
    as (t0 & ts & Htr).
  { destruct (MemStorage.getTranscriptByRecordingId id (storage w))
      as [|t0 ts] eqn:E; [|now eauto].
    exfalso.
    assert (In t (MemStorage.getTranscriptByRecordingId id (storage w))) as Hi.
    { unfold MemStorage.getTranscriptByRecordingId.
      apply sort_In, filter_In. split; [exact Hin|]. now apply Z.eqb_eq. }
    rewrite E in Hi. exact Hi. }
  assert (MemStorage.summaries (storage w)
            ++ [(MemStorage.summaryIdCounter (storage w), row)]
          = JsMap.set (MemStorage.summaryIdCounter (storage w)) row
                      (MemStorage.summaries (storage w)))%list as Hset.
  { symmetry. apply set_fresh, fresh_key. apply Hok. }
  assert (exists w',
             getSummary env id type w
             = (Ok (json (JsonContent (Summary.content row))), w') /\
             completions w'
             = (completions w ++ [summaryRequest type transcriptText])%list /\
             storage w'
             = MemStorage.put_summaries
                 (JsMap.set (MemStorage.summaryIdCounter (storage w)) row
                            (MemStorage.summaries (storage w)))
                 (MemStorage.summaryIdCounter (storage w) + 1) (storage w))
    as (w' & Hrun & Hlog & Hstore).
  { eexists. split.
    - unfold getSummary, try_catch.
      unfold bind at 1, getSummaryByType, storage_read.
      unfold MemStorage.getSummaryByType, Js.find. rewrite Hfind.
      unfold bind at 1, getRecording, storage_read. rewrite Hget.
      unfold bind at 1, getTranscriptByRecordingId, storage_read.
      fold transcriptText. rewrite Htr in *.
      unfold bind at 1, generateSummary.
      unfold bind at 1, completions_create. fold transcriptText. rewrite Hllm.
      reflexivity.
    - split; reflexivity. }
  exists w'. rewrite Hstore. cbn [MemStorage.put_summaries MemStorage.summaries
    MemStorage.recordings MemStorage.transcripts MemStorage.chatMessages].
  rewrite <- Hset.
  split; [exact Hrun|]. split; [exact Hlog|]. split; [reflexivity|].
  split; [|repeat split; reflexivity].
  unfold MemStorage.getSummaryByType, Js.find.
  cbn [MemStorage.summaries MemStorage.put_summaries].
  unfold JsMap.values in *. rewrite map_app.
  rewrite find_app by exact Hfind.
  simpl. now rewrite Z.eqb_refl, String.eqb_refl.
Qed.

Lemma getSummary_generates_once_witness :
  store_ok (storage processedWorld) /\
  MemStorage.getSummaryByType 1 "general" (storage processedWorld) = None /\
  exists w',
    getSummary sampleEnv 1 "general" processedWorld
    = (Ok (json (JsonContent (Some "A short summary"%string))), w') /\
    MemStorage.summaries (storage w')
    = [(1, Summary.mk 1 1 "general" (Some "A short summary"%string))] /\
    List.length (completions w') = 1%nat.
Proof.
  split; [exact processedWorld_ok|].
  split; [reflexivity|].
  destruct (getSummary_generates_once sampleEnv processedWorld 1 "general"
              (Recording.mk 1 "standup" "1700000000000-42.wav" 0
                            false true 1700000000000)
              (Transcript.mk 1 1 "Speaker" 0 "hello")
              (Some "A short summary"%string)
              processedWorld_ok eq_refl (or_introl eq_refl) eq_refl
              (fun x (H : False) _ => H) eq_refl)
    as (w' & Hrun & Hlog & Hrows & _).
  exists w'. split; [exact Hrun|]. split; [exact Hrows|].
  rewrite Hlog. reflexivity.
Defined.

(** * The store invariant is an invariant

    The constructor establishes [store_ok] and every method of the store
    keeps it, so it holds in every state the routes can observe. *)

Lemma below_set {V : Type} (counter k : Z) (v : V) (m : JsMap.t V) :
  below counter m -> k < counter -> below counter (JsMap.set k v m).
Proof.
  unfold below. rewrite !Forall_forall. intros Hm Hk k' Hin.
  apply keys_set in Hin as [->|Hin]; [exact Hk | now apply Hm].
Qed.

Lemma below_grow {V : Type} (counter : Z) (m : JsMap.t V) :
  below counter m -> below (counter + 1) m.
Proof.
  unfold below. rewrite !Forall_forall. intros Hm k Hin.
  specialize (Hm k Hin). lia.
Qed.

Lemma below_filter {V : Type} (counter : Z) (q : Z * V -> bool) (m : JsMap.t V) :
  below counter m -> below counter (filter q m).
Proof.
  unfold below, JsMap.keys. rewrite !Forall_forall. intros Hm k Hin.
  apply in_map_iff in Hin as (e & <- & He). apply filter_In in He as [He _].
  apply Hm. apply in_map_iff. now exists e.
Qed.

Lemma new_ok : store_ok MemStorage.new.
Proof. concrete_store_ok. Qed.

Lemma createRecording_ok now ins s :
  store_ok s -> store_ok (snd (MemStorage.createRecording now ins s)).
Proof.
  intros ((Hr & Ht & Hx & Hc) & Br & Bt & Bx & Bc).
  repeat split; simpl; try assumption.
  - now apply wf_set.
  - apply below_set; [now apply below_grow | lia].
Qed.

Lemma updateRecording_ok id u s :
  store_ok s -> store_ok (snd (MemStorage.updateRecording id u s)).
Proof.
  intros Hok. unfold MemStorage.updateRecording.
  destruct (JsMap.get id (MemStorage.recordings s)) as [r|] eqn:Hget;
    [|exact Hok].
  destruct Hok as ((Hr & Ht & Hx & Hc) & Br & Bt & Bx & Bc).
  repeat split; simpl; try assumption.
  - now apply wf_set.
  - apply below_set; [assumption|].
    unfold below in Br. rewrite Forall_forall in Br. apply Br.
    apply get_In in Hget. unfold JsMap.keys. apply in_map_iff.
    now exists (id, r).
Qed.

Lemma createTranscript_ok ins s :
  store_ok s -> store_ok (snd (MemStorage.createTranscript ins s)).
Proof.
  intros ((Hr & Ht & Hx & Hc) & Br & Bt & Bx & Bc).
  repeat split; simpl; try assumption.
  - now apply wf_set.
  - apply below_set; [now apply below_grow | lia].
Qed.

Lemma createSummary_ok ins s :
  store_ok s -> store_ok (snd (MemStorage.createSummary ins s)).
Proof.
  intros ((Hr & Ht & Hx & Hc) & Br & Bt & Bx & Bc).
  repeat split; simpl; try assumption.
  - now apply wf_set.
  - apply below_set; [now apply below_grow | lia].
Qed.

Lemma createChatMessage_ok now ins s :
  store_ok s -> store_ok (snd (MemStorage.createChatMessage now ins s)).
Proof.
  intros ((Hr & Ht & Hx & Hc) & Br & Bt & Bx & Bc).
  repeat split; simpl; try assumption.
  - now apply wf_set.
  - apply below_set; [now apply below_grow | lia].
Qed.

Lemma deleteRecording_ok id s :
  store_ok s -> store_ok (MemStorage.deleteRecording id s).
Proof.
  intros ((Hr & Ht & Hx & Hc) & Br & Bt & Bx & Bc).
  unfold store_ok, MemStorage.wf. simpl.
  rewrite (deleteWhere_filter (fun v => Transcript.recordingId v =? id)) by assumption.
  rewrite (deleteWhere_filter (fun v => Summary.recordingId v =? id)) by assumption.
  rewrite (deleteWhere_filter (fun v => ChatMessage.recordingId v =? id)) by assumption.
  unfold JsMap.delete.
  repeat split; try (now apply wf_filter); now apply below_filter.
Qed.

(** * More on the entity store *)

Lemma keys_set_present {V : Type} (k : Z) (v : V) (m : JsMap.t V) :
  In k (JsMap.keys m) -> JsMap.keys (JsMap.set k v m) = JsMap.keys m.
Proof.
  induction m as [|[k0 v0] m IH]; simpl; [tauto|].
  destruct (Z.eqb_spec k0 k) as [->|Hne]; simpl; [reflexivity|].
  intros [Heq|Hin]; [congruence|]. f_equal. now apply IH.
Qed.

Lemma get_Some_key {V : Type} (k : Z) (v : V) (m : JsMap.t V) :
  JsMap.get k m = Some v -> In k (JsMap.keys m).
Proof.
  intros H. apply get_In in H. unfold JsMap.keys. apply in_map_iff.
  now exists (k, v).
Qed.

Lemma below_lt {V : Type} (counter k : Z) (m : JsMap.t V) :
  below counter m -> In k (JsMap.keys m) -> k < counter.
Proof. unfold below. rewrite Forall_forall. auto. Qed.

(** X1. On a store that satisfies the invariant, [createRecording] stores the
    new recording under the current counter value, which no recording used
    before, with both flags unset; looking that id up afterwards returns
    exactly the recording that was handed back, every recording that was
    stored before is still found unchanged, the new entry is the last of
    the map, and the counter moves on by one. *)
Theorem createRecording_round_trip
  (now : Z) (ins : Recording.insert) (s : MemStorage.t) :
  store_ok s ->
  let r := fst (MemStorage.createRecording now ins s) in
  let s' := snd (MemStorage.createRecording now ins s) in
  Recording.id r = MemStorage.recordingIdCounter s /\
  Recording.processed r = false /\ Recording.transcribed r = false /\
  MemStorage.getRecording (Recording.id r) s = None /\
  MemStorage.getRecording (Recording.id r) s' = Some r /\
  (forall k r0, MemStorage.getRecording k s = Some r0 ->
                MemStorage.getRecording k s' = Some r0) /\
  MemStorage.recordings s'
  = (MemStorage.recordings s ++ [(Recording.id r, r)])%list /\
  MemStorage.recordingIdCounter s' = Recording.id r + 1.
Proof.
  intros (_ & Br & _). cbv zeta. simpl.
  assert (~ In (MemStorage.recordingIdCounter s)
               (JsMap.keys (MemStorage.recordings s))) as Hfresh
      by now apply fresh_key.
  repeat split.
  - now apply get_None.
  - unfold MemStorage.getRecording. simpl. apply get_set_same.
  - intros k r0 Hget. unfold MemStorage.getRecording in *. simpl.
    rewrite get_set_other; [exact Hget|].
    intros <-. apply Hfresh. eapply get_Some_key; eauto.
  - now apply set_fresh.
Qed.

Lemma createRecording_round_trip_witness :
  store_ok sampleStore /\
  MemStorage.getRecording 3
    (snd (MemStorage.createRecording 1700000000009
            (Recording.mkInsert "demo" "1700000000009-3.wav" 12) sampleStore))
  = Some (Recording.mk 3 "demo" "1700000000009-3.wav" 12 false false
                       1700000000009).
Proof.
  split; [exact sampleStore_ok|].
  pose proof (createRecording_round_trip 1700000000009
                (Recording.mkInsert "demo" "1700000000009-3.wav" 12)
                sampleStore sampleStore_ok) as H.
  cbv zeta in H. destruct H as (_ & _ & _ & _ & H & _). exact H.
Defined.

(** X2. [updateRecording] on an id that is not stored throws "Recording
    with id N not found" and leaves the store as it was.  On a stored id it
    returns the stored recording overlaid with the given fields, and that
    is what the id is found under afterwards; every other id is found as
    before, the map keeps its keys in their order (no entry is added or
    moved), and segments, summaries, chat messages and the id counter are
    untouched. *)
Theorem updateRecording_effect
  (id : Z) (updateData : Recording.partial) (s : MemStorage.t) :
  match MemStorage.getRecording id s with
  | None =>
      MemStorage.updateRecording id updateData s
      = (Throw (MemStorage.notFound id), s)
  | Some recording =>
      let updated := Recording.merge recording updateData in
      let s' := snd (MemStorage.updateRecording id updateData s) in
      fst (MemStorage.updateRecording id updateData s) = Ok updated /\
      MemStorage.getRecording id s' = Some updated /\
      (forall k, k <> id ->
                 MemStorage.getRecording k s' = MemStorage.getRecording k s) /\
      JsMap.keys (MemStorage.recordings s')
      = JsMap.keys (MemStorage.recordings s) /\
      MemStorage.transcripts s' = MemStorage.transcripts s /\
      MemStorage.summaries s' = MemStorage.summaries s /\
      MemStorage.chatMessages s' = MemStorage.chatMessages s /\
      MemStorage.recordingIdCounter s' = MemStorage.recordingIdCounter s
  end.
Proof.
  unfold MemStorage.getRecording, MemStorage.updateRecording.
  destruct (JsMap.get id (MemStorage.recordings s)) as [r0|] eqn:Hget;
    [|reflexivity].
  cbv zeta. simpl. repeat split.
  - apply get_set_same.
  - intros k Hk. apply get_set_other. congruence.
  - apply keys_set_present. eapply get_Some_key; eauto.
Qed.

(** X3. Ids are not reused after a delete: on a store that satisfies the
    invariant, a recording created right after [deleteRecording] gets the
    id the counter held before the delete, which is different from every
    id in use before the delete and in particular from the deleted one. *)
Theorem createRecording_after_delete_fresh
  (now : Z) (ins : Recording.insert) (id : Z) (s : MemStorage.t) :
  store_ok s ->
  let r := fst (MemStorage.createRecording now ins
                  (MemStorage.deleteRecording id s)) in
  Recording.id r = MemStorage.recordingIdCounter s /\
  ~ In (Recording.id r) (JsMap.keys (MemStorage.recordings s)) /\
  (forall r0, MemStorage.getRecording id s = Some r0 -> Recording.id r <> id).
Proof.
  intros (_ & Br & _). cbv zeta. simpl.
  assert (~ In (MemStorage.recordingIdCounter s)
               (JsMap.keys (MemStorage.recordings s))) as Hfresh
      by now apply fresh_key.
  repeat split; [exact Hfresh|].
  intros r0 Hget Heq. apply Hfresh. rewrite Heq.
  eapply get_Some_key; eauto.
Qed.

Lemma createRecording_after_delete_fresh_witness :
  store_ok sampleStore /\
  Recording.id
    (fst (MemStorage.createRecording 1700000000009
            (Recording.mkInsert "demo" "1700000000009-3.wav" 12)
            (MemStorage.deleteRecording 2 sampleStore)))
  = 3.
Proof.
  split; [exact sampleStore_ok|].
  pose proof (createRecording_after_delete_fresh 1700000000009
                (Recording.mkInsert "demo" "1700000000009-3.wav" 12) 2
                sampleStore sampleStore_ok) as H.
  cbv zeta in H. destruct H as (H & _). exact H.
Defined.

Lemma sort_snoc_first {A : Type} (cmp : A -> A -> Z) (x : A) (l acc : list A) :
  (forall y, In y l -> 0 < cmp y x) ->
  fold_right (Js.insert cmp) (x :: acc) l
  = x :: fold_right (Js.insert cmp) acc l.
Proof.
  induction l as [|y l IH]; simpl; intros H; [reflexivity|].
  rewrite IH by (intros z Hz; apply H; now right).
  simpl. destruct (Z.leb_spec (cmp y x) 0) as [Hle|_]; [|reflexivity].
  specialize (H y (or_introl eq_refl)). lia.
Qed.

(** X4. On a store that satisfies the invariant, a recording created at a
    time strictly later than every stored recording's creation time comes
    first in [getAllRecordings], followed by the previous listing
    unchanged. *)
Theorem getAllRecordings_after_create
  (now : Z) (ins : Recording.insert) (s : MemStorage.t) :
  store_ok s ->
  (forall r0, In r0 (JsMap.values (MemStorage.recordings s)) ->
              Recording.createdAt r0 < now) ->
  MemStorage.getAllRecordings (snd (MemStorage.createRecording now ins s))
  = fst (MemStorage.createRecording now ins s)
      :: MemStorage.getAllRecordings s.
Proof.
  intros (_ & Br & _) Hnewer.
  unfold MemStorage.getAllRecordings. simpl.
  rewrite set_fresh by now apply fresh_key.
  unfold JsMap.values, Js.sort. rewrite map_app, fold_right_app. simpl.
  apply sort_snoc_first. intros y Hy. simpl.
  specialize (Hnewer y Hy). lia.
Qed.

Lemma getAllRecordings_after_create_witness :
  store_ok sampleStore /\
  map Recording.id
    (MemStorage.getAllRecordings
       (snd (MemStorage.createRecording 1700000000009
               (Recording.mkInsert "demo" "1700000000009-3.wav" 12)
               sampleStore)))
  = [3; 2; 1].
Proof.
  split; [exact sampleStore_ok|].
  rewrite (getAllRecordings_after_create 1700000000009
             (Recording.mkInsert "demo" "1700000000009-3.wav" 12)
             sampleStore sampleStore_ok).
  - reflexivity.
  - simpl. intros r0 [<-|[<-|[]]]; reflexivity.
Defined.

Lemma find_app_some {A : Type} (f : A -> bool) (l1 l2 : list A) (x : A) :
  List.find f l1 = Some x -> List.find f (l1 ++ l2) = Some x.
Proof.
  induction l1 as [|y l1 IH]; simpl; [discriminate|].
  destruct (f y); [auto | exact IH].
Qed.

(** X5. On a store that satisfies the invariant, [createTranscript] stores
    the segment under the current counter value, where it is found by id
    afterwards, and keeps every earlier segment; the listing of the
    segment's recording gains exactly that segment (it is a permutation of
    the new segment and the old listing), and the listing of every other
    recording is unchanged. *)
Theorem createTranscript_listing (ins : Transcript.insert) (s : MemStorage.t) :
  store_ok s ->
  let t := fst (MemStorage.createTranscript ins s) in
  let s' := snd (MemStorage.createTranscript ins s) in
  Transcript.id t = MemStorage.transcriptIdCounter s /\
  MemStorage.getTranscript (Transcript.id t) s' = Some t /\
  (forall k t0, MemStorage.getTranscript k s = Some t0 ->
                MemStorage.getTranscript k s' = Some t0) /\
  Permutation
    (MemStorage.getTranscriptByRecordingId (Transcript.i_recordingId ins) s')
    (t :: MemStorage.getTranscriptByRecordingId (Transcript.i_recordingId ins) s) /\
  (forall other, other <> Transcript.i_recordingId ins ->
     MemStorage.getTranscriptByRecordingId other s'
     = MemStorage.getTranscriptByRecordingId other s).
Proof.
  intros (_ & _ & Bt & _). cbv zeta.
  assert (~ In (MemStorage.transcriptIdCounter s)
               (JsMap.keys (MemStorage.transcripts s))) as Hfresh
      by now apply fresh_key.
  split; [reflexivity|].
  split; [unfold MemStorage.getTranscript; simpl; apply get_set_same|].
  split.
  { intros k t0 Hget. unfold MemStorage.getTranscript in *. simpl.
    rewrite get_set_other; [exact Hget|].
    intros <-. apply Hfresh. eapply get_Some_key; eauto. }
  unfold MemStorage.getTranscriptByRecordingId. simpl.
  rewrite set_fresh by exact Hfresh.
  unfold JsMap.values. rewrite map_app. simpl.
  split.
  - rewrite filter_app. simpl. rewrite Z.eqb_refl.
    eapply perm_trans; [apply sort_perm|].
    eapply perm_trans; [apply Permutation_sym, Permutation_cons_append|].
    apply perm_skip, Permutation_sym, sort_perm.
  - intros other Hne. rewrite filter_app. simpl.
    destruct (Z.eqb_spec (Transcript.i_recordingId ins) other);
      [congruence|]. now rewrite app_nil_r.
Qed.

Lemma createTranscript_listing_witness :
  store_ok sampleStore /\
  MemStorage.getTranscriptByRecordingId 1
    (snd (MemStorage.createTranscript
            (Transcript.mkInsert 2 "Speaker" 5 "hi") sampleStore))
  = MemStorage.getTranscriptByRecordingId 1 sampleStore.
Proof.
  split; [exact sampleStore_ok|].
  pose proof (createTranscript_listing
                (Transcript.mkInsert 2 "Speaker" 5 "hi") sampleStore
                sampleStore_ok) as H.
  cbv zeta in H. destruct H as (_ & _ & _ & _ & H).
  apply H. discriminate.
Defined.

Section Ties.
Context {A : Type}.
Variable cmp : A -> A -> Z.
Variable key : A -> Z.
Hypothesis cmp_key : forall a b, cmp a b = key a - key b.

Lemma insert_ties (k : Z) (x : A) (l : list A) :
  filter (fun y => key y =? k) (Js.insert cmp x l)
  = if key x =? k then x :: filter (fun y => key y =? k) l
    else filter (fun y => key y =? k) l.
Proof.
  induction l as [|y l IH]; simpl; [reflexivity|].
  rewrite cmp_key. destruct (Z.leb_spec (key x - key y) 0) as [Hle|Hgt].
  - reflexivity.
  - simpl. rewrite IH.
    destruct (Z.eqb_spec (key x) k) as [Hx|Hx];
      destruct (Z.eqb_spec (key y) k) as [Hy|Hy]; try reflexivity; lia.
Qed.

Lemma sort_ties (k : Z) (l : list A) :
  filter (fun y => key y =? k) (Js.sort cmp l)
  = filter (fun y => key y =? k) l.
Proof.
  induction l as [|x l IH]; simpl; [reflexivity|].
  rewrite insert_ties, IH. reflexivity.
Qed.
End Ties.

(** X6. Ties keep insertion order: among the segments of a recording that
    share a timestamp, among its chat messages that share a timestamp, and
    among the recordings that share a creation time, the listings return
    the entries in the order in which the map holds them. *)
Theorem ties_keep_insertion_order (s : MemStorage.t) (recordingId at_ : Z) :
  filter (fun t => Transcript.timestamp t =? at_)
         (MemStorage.getTranscriptByRecordingId recordingId s)
  = filter (fun t => Transcript.timestamp t =? at_)
      (filter (fun t => Transcript.recordingId t =? recordingId)
              (JsMap.values (MemStorage.transcripts s))) /\
  filter (fun c => ChatMessage.timestamp c =? at_)
         (MemStorage.getChatMessages recordingId s)
  = filter (fun c => ChatMessage.timestamp c =? at_)
      (filter (fun c => ChatMessage.recordingId c =? recordingId)
              (JsMap.values (MemStorage.chatMessages s))) /\
  filter (fun r => Recording.createdAt r =? at_)
         (MemStorage.getAllRecordings s)
  = filter (fun r => Recording.createdAt r =? at_)
           (JsMap.values (MemStorage.recordings s)).
Proof.
  unfold MemStorage.getTranscriptByRecordingId, MemStorage.getChatMessages,
    MemStorage.getAllRecordings.
  split; [|split].
  - apply (sort_ties _ Transcript.timestamp). reflexivity.
  - apply (sort_ties _ ChatMessage.timestamp). reflexivity.
  - assert (forall l,
               filter (fun r => Recording.createdAt r =? at_) l
               = filter (fun r => - Recording.createdAt r =? - at_) l) as Hext.
    { intros l. apply filter_ext. intros r.
      destruct (Z.eqb_spec (Recording.createdAt r) at_);
        destruct (Z.eqb_spec (- Recording.createdAt r) (- at_));
        try reflexivity; lia. }
    rewrite !Hext.
    apply (sort_ties _ (fun r => - Recording.createdAt r)).
    intros a b. lia.
Qed.

(** X7. For every store and every recording id, [getChatMessages] returns
    exactly the stored chat messages whose [recordingId] is that id (each
    as often as it is stored), ordered by non-decreasing timestamp. *)
Theorem getChatMessages_sorted_exact (s : MemStorage.t) (recordingId : Z) :
  let out := MemStorage.getChatMessages recordingId s in
  StronglySorted
    (fun a b => ChatMessage.timestamp a <= ChatMessage.timestamp b) out /\
  Permutation out
    (filter (fun c => ChatMessage.recordingId c =? recordingId)
            (JsMap.values (MemStorage.chatMessages s))) /\
  (forall c, In c out <->
             In c (JsMap.values (MemStorage.chatMessages s)) /\
             ChatMessage.recordingId c = recordingId).
Proof.
  unfold MemStorage.getChatMessages. cbv zeta.
  split; [apply (sort_sorted _ ChatMessage.timestamp); reflexivity|].
  split; [apply sort_perm|].
  intros c. rewrite sort_In, filter_In. now rewrite Z.eqb_eq.
Qed.

(** X8. First match wins: on a store that satisfies the invariant, after
    [createSummary] a lookup by (recording, type) still returns the row it
    returned before if there was one, so a second summary for the same pair
    is never seen by reads; only when there was none does the lookup return
    the new row, and only if the new row is for that pair. *)
Theorem getSummaryByType_after_create
  (ins : Summary.insert) (s : MemStorage.t) (recordingId : Z) (type : string) :
  store_ok s ->
  MemStorage.getSummaryByType recordingId type
    (snd (MemStorage.createSummary ins s))
  = match MemStorage.getSummaryByType recordingId type s with
    | Some first => Some first
    | None =>
        if (Summary.i_recordingId ins =? recordingId)
           && String.eqb (Summary.i_type ins) type
        then Some (fst (MemStorage.createSummary ins s))
        else None
    end.
Proof.
  intros (_ & _ & _ & Bx & _).
  unfold MemStorage.getSummaryByType, Js.find. simpl.
  rewrite set_fresh by now apply fresh_key.
  unfold JsMap.values. rewrite map_app. simpl.
  destruct (List.find _ (map snd (MemStorage.summaries s))) as [x|] eqn:Hfind.
  - now apply find_app_some.
  - rewrite find_app by exact Hfind. simpl.
    destruct ((Summary.i_recordingId ins =? recordingId)
              && String.eqb (Summary.i_type ins) type); reflexivity.
Qed.

Lemma getSummaryByType_after_create_witness :
  store_ok sampleStore /\
  MemStorage.getSummaryByType 1 "general"
    (snd (MemStorage.createSummary
            (Summary.mkInsert 1 "general" (Some "a second one"%string))
            sampleStore))
  = Some (Summary.mk 1 1 "general" (Some "A short summary"%string)).
Proof.
  split; [exact sampleStore_ok|].
  rewrite (getSummaryByType_after_create
             (Summary.mkInsert 1 "general" (Some "a second one"%string))
             sampleStore 1 "general" sampleStore_ok).
  reflexivity.
Defined.

Lemma filter_twice {A : Type} (f : A -> bool) (l : list A) :
  filter f (filter f l) = filter f l.
Proof.
  induction l as [|x l IH]; simpl; [reflexivity|].
  destruct (f x) eqn:Hf; simpl; [rewrite Hf; now f_equal | exact IH].
Qed.

Lemma filter_swap {A : Type} (f g : A -> bool) (l : list A) :
  filter f (filter g l) = filter g (filter f l).
Proof.
  induction l as [|x l IH]; simpl; [reflexivity|].
  destruct (f x) eqn:Hf, (g x) eqn:Hg; simpl; rewrite ?Hf, ?Hg;
    try (now f_equal); exact IH.
Qed.

(** On a store that satisfies the invariant the cascade is four filters. *)
Lemma deleteRecording_filters (id : Z) (s : MemStorage.t) :
  store_ok s ->
  MemStorage.deleteRecording id s
  = MemStorage.mk
      (filter (fun e => negb (fst e =? id)) (MemStorage.recordings s))
      (filter (fun e => negb (Transcript.recordingId (snd e) =? id))
              (MemStorage.transcripts s))
      (filter (fun e => negb (Summary.recordingId (snd e) =? id))
              (MemStorage.summaries s))
      (filter (fun e => negb (ChatMessage.recordingId (snd e) =? id))
              (MemStorage.chatMessages s))
      (MemStorage.recordingIdCounter s) (MemStorage.transcriptIdCounter s)
      (MemStorage.summaryIdCounter s) (MemStorage.chatMessageIdCounter s).
Proof.
  intros ((Hr & Ht & Hx & Hc) & _). unfold MemStorage.deleteRecording.
  rewrite (deleteWhere_filter (fun v => Transcript.recordingId v =? id)) by assumption.
  rewrite (deleteWhere_filter (fun v => Summary.recordingId v =? id)) by assumption.
  rewrite (deleteWhere_filter (fun v => ChatMessage.recordingId v =? id)) by assumption.
  reflexivity.
Qed.

(** X9. On a store that satisfies the invariant, deleting the same id twice
    is the same as deleting it once, and deletes of two ids give the same
    store in either order. *)
Theorem deleteRecording_idempotent_commutes (a b : Z) (s : MemStorage.t) :
  store_ok s ->
  MemStorage.deleteRecording a (MemStorage.deleteRecording a s)
  = MemStorage.deleteRecording a s /\
  MemStorage.deleteRecording a (MemStorage.deleteRecording b s)
  = MemStorage.deleteRecording b (MemStorage.deleteRecording a s).
Proof.
  intros Hok.
  pose proof (deleteRecording_ok a s Hok) as Hoka.
  pose proof (deleteRecording_ok b s Hok) as Hokb.
  rewrite (deleteRecording_filters a _ Hoka), (deleteRecording_filters a _ Hokb),
    (deleteRecording_filters b _ Hoka).
  rewrite (deleteRecording_filters a s Hok), (deleteRecording_filters b s Hok).
  simpl. split.
  - now rewrite !filter_twice.
  - f_equal; apply filter_swap.
Qed.

Lemma deleteRecording_idempotent_commutes_witness :
  store_ok sampleStore /\
  MemStorage.deleteRecording 1 (MemStorage.deleteRecording 2 sampleStore)
  = MemStorage.deleteRecording 2 (MemStorage.deleteRecording 1 sampleStore).
Proof.
  split; [exact sampleStore_ok|].
  exact (proj2 (deleteRecording_idempotent_commutes 1 2 sampleStore
                  sampleStore_ok)).
Defined.

(** * The user slice *)

(** X11. On a user store whose keys are unique and below the counter,
    [createUser] stores the new user under the current counter value, which
    no user had; [getUser] on that id returns the user handed back, every
    earlier user is still found, and the invariant holds afterwards. *)
Theorem createUser_round_trip (ins : User.insert) (s : UserStore.t) :
  user_store_ok s ->
  let user := fst (UserStore.createUser ins s) in
  let s' := snd (UserStore.createUser ins s) in
  User.id user = UserStore.userIdCounter s /\
  UserStore.getUser (User.id user) s = None /\
  UserStore.getUser (User.id user) s' = Some user /\
  (forall k u, UserStore.getUser k s = Some u ->
               UserStore.getUser k s' = Some u) /\
  user_store_ok s'.
Proof.
  intros (Hwf & Hb). cbv zeta. simpl.
  assert (~ In (UserStore.userIdCounter s) (JsMap.keys (UserStore.users s)))
    as Hfresh by now apply fresh_key.
  split; [reflexivity|].
  split; [now apply get_None|].
  split; [unfold UserStore.getUser; simpl; apply get_set_same|].
  split.
  - intros k u Hget. unfold UserStore.getUser in *. simpl.
    rewrite get_set_other; [exact Hget|].
    intros <-. apply Hfresh. eapply get_Some_key; eauto.
  - split; simpl.
    + now apply wf_set.
    + apply below_set; [now apply below_grow | lia].
Qed.

Lemma sampleUsers_ok : user_store_ok sampleUsers.
Proof.
  split.
  - repeat constructor. simpl. tauto.
  - repeat constructor.
Qed.

Lemma createUser_round_trip_witness :
  user_store_ok sampleUsers /\
  UserStore.getUser 2
    (snd (UserStore.createUser (User.mkInsert "grace" "pw") sampleUsers))
  = Some (User.mk 2 "grace" "pw").
Proof.
  split; [exact sampleUsers_ok|].
  pose proof (createUser_round_trip (User.mkInsert "grace" "pw") sampleUsers
                sampleUsers_ok) as H.
  cbv zeta in H. destruct H as (_ & _ & H & _). exact H.
Defined.

(** X12. [createUser] does not enforce unique names, and lookups by name
    return the first match: after [createUser], [getUserByUsername] returns
    what it returned before if a user of that name existed, and otherwise
    the new user exactly when the new user has that name. *)
Theorem getUserByUsername_after_create
  (ins : User.insert) (s : UserStore.t) (username : string) :
  user_store_ok s ->
  UserStore.getUserByUsername username (snd (UserStore.createUser ins s))
  = match UserStore.getUserByUsername username s with
    | Some first => Some first
    | None =>
        if String.eqb (User.i_username ins) username
        then Some (fst (UserStore.createUser ins s))
        else None
    end.
Proof.
  intros (_ & Hb).
  unfold UserStore.getUserByUsername, Js.find. simpl.
  rewrite set_fresh by now apply fresh_key.
  unfold JsMap.values. rewrite map_app. simpl.
  destruct (List.find _ (map snd (UserStore.users s))) as [x|] eqn:Hfind.
  - now apply find_app_some.
  - rewrite find_app by exact Hfind. simpl.
    destruct (String.eqb (User.i_username ins) username); reflexivity.
Qed.

Lemma getUserByUsername_after_create_witness :
  user_store_ok sampleUsers /\
  UserStore.getUserByUsername "ada"
    (snd (UserStore.createUser (User.mkInsert "ada" "other") sampleUsers))
  = Some (User.mk 1 "ada" "s3cret").
Proof.
  split; [exact sampleUsers_ok|].
  rewrite (getUserByUsername_after_create (User.mkInsert "ada" "other")
             sampleUsers "ada" sampleUsers_ok).
  reflexivity.
Defined.

(** A lookup by name answers with a stored user of that name, and answers
    nothing only when no stored user has the name. *)
Lemma getUserByUsername_sound (s : UserStore.t) (username : string) :
  match UserStore.getUserByUsername username s with
  | Some user =>
      In user (JsMap.values (UserStore.users s)) /\
      User.username user = username
  | None =>
      forall user, In user (JsMap.values (UserStore.users s)) ->
                   User.username user <> username
  end.
Proof.
  unfold UserStore.getUserByUsername, Js.find.
  destruct (List.find _ _) as [user|] eqn:Hfind.
  - apply find_some in Hfind as [Hin Heq]. split; [exact Hin|].
    now apply String.eqb_eq.
  - intros user Hin Heq.
    pose proof (find_none _ _ Hfind user Hin) as Hno. simpl in Hno.
    apply String.eqb_neq in Hno. contradiction.
Qed.

(** * Every route keeps the store invariant *)

Lemma keeps_ret {A : Type} (a : A) : keeps_ok (ret a).
Proof. intros w H. exact H. Qed.

Lemma keeps_bind {A B : Type} (c : M A) (k : A -> M B) :
  keeps_ok c -> (forall a, keeps_ok (k a)) -> keeps_ok (bind c k).
Proof.
  intros Hc Hk w H. unfold bind. specialize (Hc w H).
  destruct (c w) as [[a|e] w']; simpl in *; [now apply Hk | exact Hc].
Qed.

Lemma keeps_try_catch {A : Type} (body : M A) (handler : string -> M A) :
  keeps_ok body -> (forall e, keeps_ok (handler e)) ->
  keeps_ok (try_catch body handler).
Proof.
  intros Hb Hh w H. unfold try_catch. specialize (Hb w H).
  destruct (body w) as [[a|e] w']; simpl in *; [exact Hb | now apply Hh].
Qed.

Lemma keeps_forEach {A : Type} (l : list A) (f : A -> M unit) :
  (forall x, keeps_ok (f x)) -> keeps_ok (forEach l f).
Proof.
  intros Hf. induction l as [|x l IH]; simpl.
  - apply keeps_ret.
  - apply keeps_bind; [apply Hf | intros _; exact IH].
Qed.

Lemma keeps_storage_read {A : Type} (f : MemStorage.t -> A) :
  keeps_ok (storage_read f).
Proof. intros w H. exact H. Qed.

Lemma keeps_storage_do {A : Type} (f : MemStorage.t -> A * MemStorage.t) :
  (forall s, store_ok s -> store_ok (snd (f s))) -> keeps_ok (storage_do f).
Proof.
  intros Hf w H. unfold storage_do. specialize (Hf _ H).
  destruct (f (storage w)). exact Hf.
Qed.

Lemma keeps_storage_try {A : Type}
  (f : MemStorage.t -> Outcome A * MemStorage.t) :
  (forall s, store_ok s -> store_ok (snd (f s))) -> keeps_ok (storage_try f).
Proof.
  intros Hf w H. unfold storage_try. specialize (Hf _ H).
  destruct (f (storage w)). exact Hf.
Qed.

(** A step that does not write the store. *)
Lemma keeps_untouched {A : Type} (c : M A) :
  (forall w, storage (snd (c w)) = storage w) -> keeps_ok c.
Proof. intros Hc w H. now rewrite Hc. Qed.

Create HintDb keeps.
#[local] Hint Resolve keeps_ret keeps_storage_read : keeps.
#[local] Hint Resolve createRecording_ok updateRecording_ok createTranscript_ok
  createSummary_ok createChatMessage_ok deleteRecording_ok : keeps.

Ltac keeps :=
  repeat first
    [ apply keeps_ret
    | apply keeps_storage_read
    | apply keeps_try_catch; [|intros ?]
    | apply keeps_bind; [|intros ?]
    | apply keeps_forEach; intros ?
    | apply keeps_storage_do; intros ? ?;
      solve [auto with keeps | simpl; auto with keeps]
    | apply keeps_storage_try; intros ? ?; solve [auto with keeps]
    | apply keeps_untouched; intros ?; reflexivity
    | match goal with
      | |- keeps_ok (if ?b then _ else _) => destruct b
      | |- keeps_ok (match ?x with _ => _ end) => destruct x
      end ].

Lemma keeps_generateSummary env recordingId type transcriptText :
  keeps_ok (generateSummary env recordingId type transcriptText).
Proof.
  unfold generateSummary, completions_create, createSummary. keeps.
Qed.

Lemma keeps_processRecording env recording :
  keeps_ok (processRecording env recording).
Proof.
  unfold processRecording, processRecording_try, processRecording_catch,
    fs_readFile, transcriptions_create, updateRecording, createTranscript,
    dispatch.
  keeps.
Qed.

Lemma keeps_createRecording env ins : keeps_ok (createRecording env ins).
Proof. unfold createRecording, newDate. keeps. Qed.

Lemma keeps_createChatMessage env ins : keeps_ok (createChatMessage env ins).
Proof. unfold createChatMessage, newDate. keeps. Qed.

Lemma keeps_settle env job : keeps_ok (settle env job).
Proof.
  unfold settle. apply keeps_try_catch; [|intros e; apply keeps_ret].
  apply keeps_bind; [apply keeps_generateSummary | intros s; apply keeps_ret].
Qed.

(** X10. Every route and every background job keeps the store invariant
    (no key twice in a map, every key below its counter), whatever the
    collaborators answer and whether the run ends normally or in an error:
    the pipeline, the detached pipeline, a summary job, and the status,
    summary, chat, list, get, transcript, create, upload and delete
    handlers. *)
Theorem routes_keep_store_ok
  (env : Env) (existsSync : string -> bool) (unlink : string -> Outcome unit)
  (stem : string -> string) :
  (forall recording, keeps_ok (processRecording env recording)) /\
  (forall recording, keeps_ok (detached env recording)) /\
  (forall job, keeps_ok (settle env job)) /\
  (forall id, keeps_ok (getStatus id)) /\
  (forall id type, keeps_ok (getSummary env id type)) /\
  (forall id message, keeps_ok (postChat env id message)) /\
  keeps_ok listRecordings /\
  (forall id, keeps_ok (getRecordingRoute id)) /\
  (forall id, keeps_ok (getTranscriptRoute id)) /\
  (forall form, keeps_ok (postRecording env form)) /\
  (forall file, keeps_ok (postUpload env stem file)) /\
  (forall id, keeps_ok (deleteRecordingRoute existsSync unlink id)).
Proof.
  repeat match goal with |- _ /\ _ => split end.
  - intros recording. apply keeps_processRecording.
  - intros recording. unfold detached. apply keeps_try_catch; [apply keeps_processRecording|].
    intros e. apply keeps_ret.
  - intros job. apply keeps_settle.
  - intros id. unfold getStatus, getRecording. keeps.
  - intros id type. unfold getSummary, getSummaryByType, getRecording,
      getTranscriptByRecordingId.
    apply keeps_try_catch; [|intros e; apply keeps_ret].
    apply keeps_bind; [apply keeps_storage_read|]. intros [x|]; [apply keeps_ret|].
    apply keeps_bind; [apply keeps_storage_read|]. intros [r|]; [|apply keeps_ret].
    apply keeps_bind; [apply keeps_storage_read|]. intros [|t ts]; [apply keeps_ret|].
    apply keeps_bind; [apply keeps_generateSummary | intros s; apply keeps_ret].
  - intros id message. unfold postChat, getRecording, getTranscriptByRecordingId.
    apply keeps_try_catch; [|intros e; apply keeps_ret].
    destruct (negb (Js.truthy message)); [apply keeps_ret|].
    apply keeps_bind; [apply keeps_storage_read|]. intros [r|]; [|apply keeps_ret].
    apply keeps_bind; [apply keeps_storage_read|]. intros [|t ts]; [apply keeps_ret|].
    apply keeps_bind; [apply keeps_createChatMessage|]. intros _.
    apply keeps_bind; [unfold completions_create; keeps|]. intros ai.
    apply keeps_bind; [apply keeps_createChatMessage|]. intros _.
    apply keeps_ret.
  - unfold listRecordings. keeps.
  - intros id. unfold getRecordingRoute, getRecording. keeps.
  - intros id. unfold getTranscriptRoute, getTranscriptByRecordingId. keeps.
  - intros form. unfold postRecording.
    apply keeps_try_catch; [|intros e; apply keeps_ret].
    destruct (r_file form); [|apply keeps_ret].
    apply keeps_bind; [apply keeps_createRecording | intros r; apply keeps_ret].
  - intros file. unfold postUpload.
    apply keeps_try_catch; [|intros e; apply keeps_ret].
    destruct file; [|apply keeps_ret].
    apply keeps_bind; [apply keeps_createRecording | intros r; apply keeps_ret].
  - intros id. unfold deleteRecordingRoute, getRecording, fs_unlink. keeps.
Qed.

(** * Creating a recording and running its pipeline *)

Lemma createRecording_run (env : Env) (ins : Recording.insert) (w : World) :
  createRecording env ins w
  = (Ok (fst (MemStorage.createRecording (clock env (ticks w)) ins (storage w))),
     mkWorld (snd (MemStorage.createRecording (clock env (ticks w)) ins (storage w)))
             (S (ticks w)) (completions w) (dispatched w)).
Proof. reflexivity. Qed.

Lemma getStatus_of_flags (id : Z) (w : World) (r : Recording.t) :
  MemStorage.getRecording id (storage w) = Some r ->
  Recording.transcribed r = true ->
  getStatus id w = (Ok (json (JsonStatus 100 "Completed")), w).
Proof.
  intros Hget Ht.
  unfold getStatus, try_catch, bind, getRecording, storage_read.
  now rewrite Hget, Ht.
Qed.

(** Once the [try] block has thrown with the recording still stored, the
    [catch] block stores both flags and the pipeline returns normally. *)
Lemma catch_sets_both env w recording r0 e :
  MemStorage.getRecording (Recording.id recording) (storage w) = Some r0 ->
  processRecording_try env recording w = (Throw e, w) ->
  exists w2 r2,
    processRecording env recording w = (Ok tt, w2) /\
    MemStorage.getRecording (Recording.id recording) (storage w2) = Some r2 /\
    Recording.processed r2 = true /\ Recording.transcribed r2 = true /\
    MemStorage.transcripts (storage w2) = MemStorage.transcripts (storage w) /\
    MemStorage.summaries (storage w2) = MemStorage.summaries (storage w) /\
    MemStorage.chatMessages (storage w2) = MemStorage.chatMessages (storage w) /\
    dispatched w2 = dispatched w /\ completions w2 = completions w.
Proof.
  intros Hget Hthrow.
  unfold processRecording, try_catch. rewrite Hthrow.
  unfold processRecording_catch.
  eexists. eexists. split.
  - erewrite bind_ok; [reflexivity|].
    apply updateRecording_present. exact Hget.
  - split; [apply present_after_update|]. repeat split.
Qed.

Lemma readFile_throw env w recording e :
  readFile env (Recording.filename recording) = Throw e ->
  processRecording_try env recording w = (Throw e, w).
Proof.
  intros Hread. unfold processRecording_try, bind, fs_readFile.
  now rewrite Hread.
Qed.

(** Whatever the collaborators do, a pipeline run on a stored recording
    returns normally and leaves the recording with [transcribed] set. *)
Lemma processRecording_ends_transcribed env w recording r0 :
  MemStorage.getRecording (Recording.id recording) (storage w) = Some r0 ->
  exists w2 r2,
    processRecording env recording w = (Ok tt, w2) /\
    MemStorage.getRecording (Recording.id recording) (storage w2) = Some r2 /\
    Recording.transcribed r2 = true.
Proof.
  intros Hget.
  destruct (readFile env (Recording.filename recording)) as [bytes|e] eqn:Hread.
  - destruct (transcribe env (Recording.filename recording) bytes)
      as [transcription|e] eqn:Htr.
    + destruct (processRecording_success_state env w recording r0 bytes
                  transcription Hget Hread Htr) as (w2 & Hrun & Hstate).
      eexists. eexists. split; [exact Hrun|]. split; [exact Hstate|reflexivity].
    + destruct (catch_sets_both env w recording r0 e Hget
                  (transcription_throw env w recording bytes e Hread Htr))
        as (w2 & r2 & Hrun & Hstate & _ & Ht & _).
      now exists w2, r2.
  - destruct (catch_sets_both env w recording r0 e Hget
                (readFile_throw env w recording e Hread))
      as (w2 & r2 & Hrun & Hstate & _ & Ht & _).
    now exists w2, r2.
Qed.

(** X13. [POST /api/recordings] on a store that satisfies the invariant:
    without a file it answers 400 and changes nothing; with a file it
    answers 201 with the created recording, whose id is fresh, whose title
    defaults to "Untitled Recording" when the form gives none or an empty
    one, whose duration defaults to 0 when the form's duration does not
    parse, and whose flags are unset; it starts one pipeline, for that
    recording; the recording is stored, earlier recordings are kept, no
    segment, summary or chat message is touched, and its status right
    after the answer is 25 "Transcribing audio". *)
Theorem postRecording_creates (env : Env) (form : RecorderForm) (w : World) :
  store_ok (storage w) ->
  match r_file form with
  | None =>
      postRecording env form w
      = (Ok (mkReply 400 (PlainBody (JsonMessage "No audio file provided" None)),
             []), w)
  | Some file =>
      let recording :=
        Recording.mk (MemStorage.recordingIdCounter (storage w))
          (match r_title form with
           | None => "Untitled Recording"%string
           | Some EmptyString => "Untitled Recording"%string
           | Some title => title
           end)
          (f_filename file)
          (match r_duration form with Some d => d | None => 0 end)
          false false (clock env (ticks w)) in
      exists w',
        postRecording env form w
        = (Ok (mkReply 201 (JsonRecording recording), [recording]), w') /\
        MemStorage.getRecording (Recording.id recording) (storage w) = None /\
        MemStorage.getRecording (Recording.id recording) (storage w')
        = Some recording /\
        (forall k r0, MemStorage.getRecording k (storage w) = Some r0 ->
                      MemStorage.getRecording k (storage w') = Some r0) /\
        getStatus (Recording.id recording) w'
        = (Ok (json (JsonStatus 25 "Transcribing audio")), w') /\
        MemStorage.transcripts (storage w') = MemStorage.transcripts (storage w) /\
        MemStorage.summaries (storage w') = MemStorage.summaries (storage w) /\
        MemStorage.chatMessages (storage w') = MemStorage.chatMessages (storage w)
  end.
Proof.
  intros (_ & Br & _).
  unfold postRecording. destruct (r_file form) as [file|]; [|reflexivity].
  cbv zeta.
  assert (~ In (MemStorage.recordingIdCounter (storage w))
               (JsMap.keys (MemStorage.recordings (storage w)))) as Hfresh
      by now apply fresh_key.
  assert (match r_title form with
          | None => "Untitled Recording"%string
          | Some EmptyString => "Untitled Recording"%string
          | Some title => title
          end = Js.orElse (r_title form) "Untitled Recording") as ->
      by (destruct (r_title form) as [[|c t]|]; reflexivity).
  change (match r_duration form with Some d => d | None => 0 end)
    with (orZeroInt (r_duration form)).
  eexists. split.
  - unfold try_catch. erewrite bind_ok; [|apply createRecording_run].
    reflexivity.
  - simpl. split; [now apply get_None|].
    split; [unfold MemStorage.getRecording; simpl; apply get_set_same|].
    split.
    { intros k r0 Hget. unfold MemStorage.getRecording in *. simpl.
      rewrite get_set_other; [exact Hget|].
      intros <-. apply Hfresh. eapply get_Some_key; eauto. }
    split; [|repeat split].
    unfold getStatus, try_catch, bind, getRecording, storage_read,
      MemStorage.getRecording. simpl.
    now rewrite get_set_same.
Qed.

Lemma postRecording_creates_witness :
  store_ok (storage uploadedWorld) /\
  exists w',
    postRecording sampleEnv
      (mkForm (Some (mkFile "1700000000001-7.webm" "recording.webm"))
              (Some EmptyString) None)
      uploadedWorld
    = (Ok (mkReply 201
             (JsonRecording
                (Recording.mk 2 "Untitled Recording" "1700000000001-7.webm" 0
                              false false 1700000000001)),
           [Recording.mk 2 "Untitled Recording" "1700000000001-7.webm" 0
                         false false 1700000000001]),
       w').
Proof.
  split; [exact uploadedWorld_ok|].
  pose proof (postRecording_creates sampleEnv
                (mkForm (Some (mkFile "1700000000001-7.webm" "recording.webm"))
                        (Some EmptyString) None)
                uploadedWorld uploadedWorld_ok) as H.
  cbn [r_file r_title r_duration] in H. cbv zeta in H.
  destruct H as (w' & Hrun & _). exists w'. exact Hrun.
Defined.

(** X14. Polling terminates: for every world, every uploaded file and every
    behaviour of the file system and the transcription service, once the
    pipeline started by [POST /api/recordings/upload] or by
    [POST /api/recordings] has run, it has completed without an error and
    the status route answers 100 "Completed" for the created recording. *)
Theorem upload_then_pipeline_completes
  (env : Env) (stem : string -> string) (file : UploadedFile)
  (title : option string) (duration : option Z) (w : World) :
  (exists recording w1 w2,
      postUpload env stem (Some file) w
      = (Ok (mkReply 201 (JsonRecording recording), [recording]), w1) /\
      detached env recording w1 = (Ok tt, w2) /\
      getStatus (Recording.id recording) w2
      = (Ok (json (JsonStatus 100 "Completed")), w2)) /\
  (exists recording w1 w2,
      postRecording env (mkForm (Some file) title duration) w
      = (Ok (mkReply 201 (JsonRecording recording), [recording]), w1) /\
      detached env recording w1 = (Ok tt, w2) /\
      getStatus (Recording.id recording) w2
      = (Ok (json (JsonStatus 100 "Completed")), w2)).
Proof.
  assert (forall ins,
             exists recording w1 w2,
               createRecording env ins w = (Ok recording, w1) /\
               detached env recording w1 = (Ok tt, w2) /\
               getStatus (Recording.id recording) w2
               = (Ok (json (JsonStatus 100 "Completed")), w2)) as Hany.
  { intros ins.
    set (created := MemStorage.createRecording (clock env (ticks w)) ins
                      (storage w)).
    set (w1 := mkWorld (snd created) (S (ticks w)) (completions w)
                       (dispatched w)).
    assert (MemStorage.getRecording (Recording.id (fst created)) (storage w1)
            = Some (fst created)) as Hget
        by (unfold MemStorage.getRecording; simpl; apply get_set_same).
    destruct (processRecording_ends_transcribed env w1 (fst created)
                (fst created) Hget) as (w2 & r2 & Hrun & Hstate & Ht).
    exists (fst created), w1, w2.
    split; [reflexivity|].
    split; [unfold detached, try_catch; now rewrite Hrun|].
    eapply getStatus_of_flags; eauto. }
  split.
  - destruct (Hany (Recording.mkInsert (stem (f_originalname file))
                      (f_filename file) 0))
      as (recording & w1 & w2 & Hc & Hd & Hs).
    exists recording, w1, w2. split; [|now split].
    unfold postUpload, try_catch. now rewrite (bind_ok _ _ _ _ _ Hc).
  - destruct (Hany (Recording.mkInsert
                      (Js.orElse title "Untitled Recording")
                      (f_filename file) (orZeroInt duration)))
      as (recording & w1 & w2 & Hc & Hd & Hs).
    exists recording, w1, w2. split; [|now split].
    unfold postRecording, try_catch. cbn [r_file r_title r_duration].
    now rewrite (bind_ok _ _ _ _ _ Hc).
Qed.

(** * What a successful pipeline run persists *)

Lemma with_storage_twice (s s' : MemStorage.t) (w : World) :
  with_storage s' (with_storage s w) = with_storage s' w.
Proof. reflexivity. Qed.

Lemma persistedSegments_length rid next segments :
  List.length (persistedSegments rid next segments) = List.length segments.
Proof.
  revert next. induction segments as [|x l IH]; intros next; simpl;
    [reflexivity | now rewrite IH].
Qed.

Lemma below_app_one {V : Type} (counter : Z) (v : V) (m : JsMap.t V) :
  below counter m -> below (counter + 1) (m ++ [(counter, v)]).
Proof.
  unfold below, JsMap.keys. rewrite map_app, !Forall_forall.
  intros Hm k Hin. apply in_app_iff in Hin as [Hin|[<-|[]]]; [|simpl; lia].
  specialize (Hm k Hin). lia.
Qed.

(** The segment loop appends one entry per segment, in order, under
    consecutive ids, and touches nothing else. *)
Lemma forEach_persists (rid : Z) (segments : list OpenAI.Segment) :
  forall w,
    below (MemStorage.transcriptIdCounter (storage w))
          (MemStorage.transcripts (storage w)) ->
    forEach segments (fun segment =>
      createTranscript
        (Transcript.mkInsert rid "Speaker"
           (Js.Math_round (OpenAI.start segment)) (OpenAI.text segment)) ;;;
      ret tt)%js w
    = (Ok tt,
       with_storage
         (MemStorage.put_transcripts
            (MemStorage.transcripts (storage w)
               ++ persistedSegments rid
                    (MemStorage.transcriptIdCounter (storage w)) segments)
            (MemStorage.transcriptIdCounter (storage w)
               + Z.of_nat (List.length segments))
            (storage w)) w).
Proof.
  induction segments as [|segment segments IH]; intros w Hb; cbn [forEach].
  - simpl. rewrite app_nil_r, Z.add_0_r.
    destruct w as [[] ? ? ?]; reflexivity.
  - set (ins := Transcript.mkInsert rid "Speaker"
                  (Js.Math_round (OpenAI.start segment)) (OpenAI.text segment)).
    set (w1 := with_storage (snd (MemStorage.createTranscript ins (storage w))) w).
    assert ((createTranscript ins ;;; ret tt)%js w = (Ok tt, w1)) as Hstep
        by reflexivity.
    rewrite (bind_ok _ _ w w1 tt Hstep).
    assert (MemStorage.transcripts (storage w1)
            = MemStorage.transcripts (storage w)
                ++ [(MemStorage.transcriptIdCounter (storage w),
                     fst (MemStorage.createTranscript ins (storage w)))])
      as Htr.
    { unfold w1. simpl. apply set_fresh. now apply fresh_key. }
    rewrite IH.
    + rewrite Htr. unfold w1. cbn [storage with_storage].
      cbn [MemStorage.createTranscript snd fst MemStorage.transcriptIdCounter
           MemStorage.put_transcripts persistedSegments length].
      rewrite <- app_assoc. simpl.
      unfold with_storage, MemStorage.put_transcripts. simpl.
      do 2 f_equal. f_equal. lia.
    + rewrite Htr. unfold w1. simpl. now apply below_app_one.
Qed.

(** A run in which the file is read and the transcription returns a
    segment list, field by field. *)
Lemma run_with_segments env w recording r0 bytes transcription segments :
  store_ok (storage w) ->
  MemStorage.getRecording (Recording.id recording) (storage w) = Some r0 ->
  readFile env (Recording.filename recording) = Ok bytes ->
  transcribe env (Recording.filename recording) bytes = Ok transcription ->
  OpenAI.t_segments transcription = Some segments ->
  exists w',
    processRecording env recording w = (Ok tt, w') /\
    MemStorage.getRecording (Recording.id recording) (storage w')
    = Some (Recording.mk (Recording.id recording) (Recording.title recording)
              (Recording.filename recording) (Recording.duration recording)
              (Recording.processed recording) true
              (Recording.createdAt recording)) /\
    MemStorage.transcripts (storage w')
    = MemStorage.transcripts (storage w)
        ++ persistedSegments (Recording.id recording)
             (MemStorage.transcriptIdCounter (storage w)) segments /\
    MemStorage.transcriptIdCounter (storage w')
    = MemStorage.transcriptIdCounter (storage w)
        + Z.of_nat (List.length segments) /\
    MemStorage.summaries (storage w') = MemStorage.summaries (storage w) /\
    MemStorage.chatMessages (storage w') = MemStorage.chatMessages (storage w) /\
    completions w' = completions w /\
    dispatched w'
    = dispatched w
        ++ map (fun type =>
                  mkJob (Recording.id recording) type
                        (Js.join blankLine (map segmentLine segments)))
               summaryTypes.
Proof.
  intros Hok Hget Hread Htr Hseg.
  destruct (first_update_shape recording
              (Js.Math_round (Js.orZero (OpenAI.t_duration transcription))))
    as (u & Hu & _).
  unfold processRecording, try_catch, processRecording_try.
  unfold bind at 1, fs_readFile. rewrite Hread.
  unfold bind at 1, transcriptions_create. rewrite Htr, Hseg, Hu.
  rewrite (bind_ok _ _ _ _ _ (updateRecording_present _ u w r0 Hget)).
  match goal with |- context [bind _ _ ?w1] => set (wa := w1) end.
  assert (below (MemStorage.transcriptIdCounter (storage wa))
                (MemStorage.transcripts (storage wa))) as Hb
      by (unfold wa; simpl; apply Hok).
  pose proof (forEach_persists (Recording.id recording) segments wa Hb) as Hrun.
  match type of Hrun with _ = (_, ?w2) => set (wb := w2) in * end.
  assert (MemStorage.getRecording (Recording.id recording) (storage wb)
          = Some (Recording.merge r0 u)) as Hgb
      by (unfold wb, wa, MemStorage.getRecording; simpl; apply get_set_same).
  eexists. split.
  - erewrite bind_ok; [reflexivity|].
    erewrite bind_ok; [|exact Hrun].
    erewrite bind_ok; [reflexivity|].
    apply updateRecording_present. exact Hgb.
  - unfold dispatch. cbn [storage].
    split; [apply present_after_update|].
    repeat split.
Qed.



Lemma postChat_no_segments env id message w r :
  Js.truthy message = true ->
  MemStorage.getRecording id (storage w) = Some r ->
  MemStorage.getTranscriptByRecordingId id (storage w) = [] ->
  postChat env id message w
  = (Ok (mkResponse 404 (JsonMessage "Transcript not found" None)), w).
Proof.
  intros Hmsg Hget Hnone.
  unfold postChat, try_catch, bind, getRecording, getTranscriptByRecordingId,
    storage_read.
  rewrite Hmsg. simpl. now rewrite Hget, Hnone.
Qed.

Lemma getSummary_no_segments env id type w r :
  MemStorage.getSummaryByType id type (storage w) = None ->
  MemStorage.getRecording id (storage w) = Some r ->
  MemStorage.getTranscriptByRecordingId id (storage w) = [] ->
  getSummary env id type w
  = (Ok (mkResponse 404 (JsonMessage "Transcript not found" None)), w).
Proof.
  intros Hsum Hget Hnone.
  unfold getSummary, try_catch, bind, getSummaryByType, getRecording,
    getTranscriptByRecordingId, storage_read.
  now rewrite Hsum, Hget, Hnone.
Qed.

(** X16. A transcription that returns an empty segment list leaves a
    recording that reads as completed but has no transcript: the pipeline
    completes, the status route answers 100 "Completed", the listing of
    segments is empty, five summary jobs are dispatched over the empty
    text, and afterwards the chat route answers 404 "Transcript not found"
    for every provided message, as does the summary route for every type
    without a stored row. *)
Theorem empty_segment_list_completes_without_transcript
  (env : Env) (w : World) (recording r0 : Recording.t)
  (bytes : list Byte.byte) (transcription : OpenAI.Transcription) :
  store_ok (storage w) ->
  MemStorage.getRecording (Recording.id recording) (storage w) = Some r0 ->
  readFile env (Recording.filename recording) = Ok bytes ->
  transcribe env (Recording.filename recording) bytes = Ok transcription ->
  OpenAI.t_segments transcription = Some [] ->
  (forall t, In t (JsMap.values (MemStorage.transcripts (storage w))) ->
             Transcript.recordingId t <> Recording.id recording) ->
  exists w',
    processRecording env recording w = (Ok tt, w') /\
    getStatus (Recording.id recording) w'
    = (Ok (json (JsonStatus 100 "Completed")), w') /\
    MemStorage.getTranscriptByRecordingId (Recording.id recording) (storage w')
    = [] /\
    dispatched w'
    = dispatched w
        ++ map (fun type => mkJob (Recording.id recording) type EmptyString)
               summaryTypes /\
    (forall message,
        Js.truthy message = true ->
        postChat env (Recording.id recording) message w'
        = (Ok (mkResponse 404 (JsonMessage "Transcript not found" None)), w')) /\
    (forall type,
        MemStorage.getSummaryByType (Recording.id recording) type (storage w)
        = None ->
        getSummary env (Recording.id recording) type w'
        = (Ok (mkResponse 404 (JsonMessage "Transcript not found" None)), w')).
Proof.
  intros Hok Hget Hread Htr Hseg Hnone.
  destruct (run_with_segments env w recording r0 bytes transcription []
              Hok Hget Hread Htr Hseg)
    as (w' & Hrun & Hstate & Htrs & _ & Hsum & _ & _ & Hjobs).
  simpl in Htrs. rewrite app_nil_r in Htrs.
  assert (MemStorage.getTranscriptByRecordingId (Recording.id recording)
            (storage w') = []) as Hempty.
  { unfold MemStorage.getTranscriptByRecordingId. rewrite Htrs.
    rewrite filter_none; [reflexivity|].
    intros t Hin. apply Z.eqb_neq. now apply Hnone. }
  exists w'. split; [exact Hrun|].
  split; [eapply getStatus_of_flags; [exact Hstate | reflexivity]|].
  split; [exact Hempty|].
  split; [exact Hjobs|].
  split.
  - intros message Hmsg. eapply postChat_no_segments; eauto.
  - intros type Hno. eapply getSummary_no_segments; eauto.
    unfold MemStorage.getSummaryByType in *. now rewrite Hsum.
Qed.

Lemma empty_segment_list_completes_without_transcript_witness :
  store_ok (storage uploadedWorld) /\
  MemStorage.getRecording 1 (storage uploadedWorld) = Some uploaded /\
  exists w',
    processRecording emptySegmentsEnv uploaded uploadedWorld = (Ok tt, w') /\
    getStatus 1 w' = (Ok (json (JsonStatus 100 "Completed")), w') /\
    postChat emptySegmentsEnv 1 (Some "Who spoke?"%string) w'
    = (Ok (mkResponse 404 (JsonMessage "Transcript not found" None)), w').
Proof.
  split; [exact uploadedWorld_ok|].
  split; [reflexivity|].
  destruct (empty_segment_list_completes_without_transcript emptySegmentsEnv
              uploadedWorld uploaded uploaded []
              (OpenAI.mkTranscription (Some EmptyString) (Some []) None)
              uploadedWorld_ok eq_refl eq_refl eq_refl eq_refl
              (fun t (H : False) => match H with end))
    as (w' & Hrun & Hstatus & _ & _ & Hchat & _).
  exists w'. split; [exact Hrun|]. split; [exact Hstatus|].
  apply Hchat. reflexivity.
Defined.

(** * Summary jobs *)

(** One settled job, field by field. *)
Lemma settle_run env job w :
  store_ok (storage w) ->
  let request := summaryRequest (j_type job) (j_transcriptText job) in
  exists w',
    settle env job w = (Ok tt, w') /\
    completions w' = completions w ++ [request] /\
    dispatched w' = dispatched w /\ ticks w' = ticks w /\
    match complete env (List.length (completions w)) request with
    | Ok content =>
        storage w'
        = MemStorage.put_summaries
            (MemStorage.summaries (storage w)
               ++ [(MemStorage.summaryIdCounter (storage w),
                    Summary.mk (MemStorage.summaryIdCounter (storage w))
                               (j_recordingId job) (j_type job) content)])
            (MemStorage.summaryIdCounter (storage w) + 1) (storage w)
    | Throw _ => storage w' = storage w
    end.
Proof.
  intros Hok request.
  unfold settle, try_catch, generateSummary, bind, completions_create,
    createSummary, storage_do, ret.
  cbn beta. fold request.
  destruct (complete env (List.length (completions w)) request)
    as [content|e].
  - eexists. split; [reflexivity|]. cbn.
    repeat split.
    rewrite set_fresh; [reflexivity|]. apply fresh_key. apply Hok.
  - eexists. split; [reflexivity|]. cbn. repeat split.
Qed.

(** X17. A summary job never surfaces an error and sends exactly one
    completion request.  When the completion returns, exactly one summary
    row is appended, under the next id, for the job's recording and type,
    and nothing else in the store changes; when the completion is
    rejected, the store is left exactly as it was. *)
Theorem settle_isolates_failure (env : Env) (job : SummaryJob) (w : World) :
  store_ok (storage w) ->
  let request := summaryRequest (j_type job) (j_transcriptText job) in
  exists w',
    settle env job w = (Ok tt, w') /\
    completions w' = completions w ++ [request] /\
    match complete env (List.length (completions w)) request with
    | Ok content =>
        MemStorage.summaries (storage w')
        = MemStorage.summaries (storage w)
            ++ [(MemStorage.summaryIdCounter (storage w),
                 Summary.mk (MemStorage.summaryIdCounter (storage w))
                            (j_recordingId job) (j_type job) content)] /\
        MemStorage.recordings (storage w') = MemStorage.recordings (storage w) /\
        MemStorage.transcripts (storage w') = MemStorage.transcripts (storage w) /\
        MemStorage.chatMessages (storage w') = MemStorage.chatMessages (storage w)
    | Throw _ => storage w' = storage w
    end.
Proof.
  intros Hok request.
  destruct (settle_run env job w Hok) as (w' & Hrun & Hlog & _ & _ & Hst).
  exists w'. split; [exact Hrun|]. split; [exact Hlog|].
  fold request in Hst.
  destruct (complete env (List.length (completions w)) request);
    [|exact Hst].
  rewrite Hst. repeat split.
Qed.

Lemma settle_isolates_failure_witness :
  store_ok (storage processedWorld) /\
  exists w',
    settle completionFailingEnv (mkJob 1 "general" "Speaker (0:00): hello")
           processedWorld = (Ok tt, w') /\
    storage w' = storage processedWorld.
Proof.
  split; [exact processedWorld_ok|].
  pose proof (settle_isolates_failure completionFailingEnv
                (mkJob 1 "general" "Speaker (0:00): hello")
                processedWorld processedWorld_ok) as H.
  cbv zeta in H. destruct H as (w' & Hrun & _ & Hst).
  exists w'. split; [exact Hrun | exact Hst].
Defined.

Lemma find_exists {A : Type} (f : A -> bool) (l : list A) (x : A) :
  In x l -> f x = true -> exists y, List.find f l = Some y /\ f y = true.
Proof.
  intros Hin Hx. destruct (List.find f l) as [y|] eqn:Hfind.
  - exists y. split; [reflexivity|]. now apply find_some in Hfind.
  - pose proof (find_none _ _ Hfind x Hin) as Hno. congruence.
Qed.

(** Settling a list of jobs, in the order of the list, when every
    completion returns. *)
Lemma settle_all env (jobs : list SummaryJob) :
  (forall n request, exists content, complete env n request = Ok content) ->
  forall w,
    store_ok (storage w) ->
    exists w',
      forEach jobs (settle env) w = (Ok tt, w') /\
      List.length (MemStorage.summaries (storage w'))
      = (List.length (MemStorage.summaries (storage w)) + List.length jobs)%nat /\
      (forall x, In x (JsMap.values (MemStorage.summaries (storage w))) ->
                 In x (JsMap.values (MemStorage.summaries (storage w')))) /\
      (forall job, In job jobs ->
         exists row,
           In row (JsMap.values (MemStorage.summaries (storage w'))) /\
           Summary.recordingId row = j_recordingId job /\
           Summary.type row = j_type job) /\
      MemStorage.recordings (storage w') = MemStorage.recordings (storage w) /\
      MemStorage.transcripts (storage w') = MemStorage.transcripts (storage w) /\
      MemStorage.chatMessages (storage w') = MemStorage.chatMessages (storage w).
Proof.
  intros Hllm. induction jobs as [|job jobs IH]; intros w Hok; cbn [forEach].
  - exists w. split; [reflexivity|]. split; [simpl; lia|].
    split; [auto|]. split; [intros job []|]. repeat split.
  - destruct (settle_run env job w Hok) as (w1 & Hrun & _ & _ & _ & Hst).
    cbv zeta in Hst.
    destruct (Hllm (List.length (completions w))
                (summaryRequest (j_type job) (j_transcriptText job)))
      as (content & Hc).
    rewrite Hc in Hst.
    assert (store_ok (storage w1)) as Hok1.
    { pose proof (keeps_settle env job w Hok) as H. now rewrite Hrun in H. }
    destruct (IH w1 Hok1) as (w' & Hrest & Hlen & Hmono & Hrows & Hr & Ht & Hc').
    exists w'. split; [now rewrite (bind_ok _ _ _ _ _ Hrun)|].
    rewrite Hst in Hlen, Hmono, Hr, Ht, Hc'. simpl in Hlen, Hmono, Hr, Ht, Hc'.
    split.
    { rewrite Hlen, length_app. simpl. lia. }
    split.
    { intros x Hx. apply Hmono. unfold JsMap.values. rewrite map_app.
      apply in_app_iff. now left. }
    split; [|now repeat split].
    intros j [<-|Hj]; [|now apply Hrows].
    eexists. split.
    + apply Hmono. unfold JsMap.values. rewrite map_app.
      apply in_app_iff. right. simpl. left. reflexivity.
    + split; reflexivity.
Qed.

(** X18. When every completion returns, settling a list of summary jobs in
    the order of the list adds exactly one row per job, and afterwards a
    lookup by (recording, type) finds a row of that recording and type for
    every job of the list.  In particular, in whatever order the five jobs
    of a pipeline are settled, every one of the five types has a summary
    afterwards. *)
Theorem fanout_rows_in_any_order
  (env : Env) (jobs : list SummaryJob) (w : World) :
  store_ok (storage w) ->
  (forall n request, exists content, complete env n request = Ok content) ->
  exists w',
    forEach jobs (settle env) w = (Ok tt, w') /\
    List.length (MemStorage.summaries (storage w'))
    = (List.length (MemStorage.summaries (storage w)) + List.length jobs)%nat /\
    (forall job, In job jobs ->
       exists row,
         MemStorage.getSummaryByType (j_recordingId job) (j_type job)
           (storage w') = Some row /\
         Summary.recordingId row = j_recordingId job /\
         Summary.type row = j_type job) /\
    (forall recordingId transcriptText,
        Permutation jobs
          (map (fun type => mkJob recordingId type transcriptText) summaryTypes) ->
        forall type, In type summaryTypes ->
          MemStorage.getSummaryByType recordingId type (storage w') <> None).
Proof.
  intros Hok Hllm.
  destruct (settle_all env jobs Hllm w Hok)
    as (w' & Hrun & Hlen & _ & Hrows & _).
  assert (forall job, In job jobs ->
            exists row,
              MemStorage.getSummaryByType (j_recordingId job) (j_type job)
                (storage w') = Some row /\
              Summary.recordingId row = j_recordingId job /\
              Summary.type row = j_type job) as Hfound.
  { intros job Hin. destruct (Hrows job Hin) as (row & Hrow & Hid & Hty).
    destruct (find_exists
                (fun summary => (Summary.recordingId summary =? j_recordingId job)
                                && String.eqb (Summary.type summary) (j_type job))
                _ row Hrow) as (y & Hfind & Hy).
    - rewrite Hid, Hty, Z.eqb_refl, String.eqb_refl. reflexivity.
    - exists y. split; [exact Hfind|].
      apply andb_true_iff in Hy as [Hy1 Hy2].
      split; [now apply Z.eqb_eq | now apply String.eqb_eq]. }
  exists w'. split; [exact Hrun|]. split; [exact Hlen|].
  split; [exact Hfound|].
  intros recordingId transcriptText Hperm type Hin.
  destruct (Hfound (mkJob recordingId type transcriptText)) as (row & Hrow & _).
  - eapply Permutation_in; [apply Permutation_sym, Hperm|].
    apply in_map_iff. now exists type.
  - simpl in Hrow. congruence.
Qed.

Lemma fanout_rows_in_any_order_witness :
  store_ok (storage processedWorld) /\
  exists w',
    forEach (rev (dispatched processedWorld)) (settle sampleEnv) processedWorld
    = (Ok tt, w') /\
    List.length (MemStorage.summaries (storage w')) = 5%nat /\
    MemStorage.getSummaryByType 1 "timeline" (storage w') <> None.
Proof.
  split; [exact processedWorld_ok|].
  destruct (fanout_rows_in_any_order sampleEnv (rev (dispatched processedWorld))
              processedWorld processedWorld_ok
              (fun n request => ex_intro _ (Some "A short summary"%string) eq_refl))
    as (w' & Hrun & Hlen & _ & Hall).
  exists w'. split; [exact Hrun|]. split; [exact Hlen|].
  apply (Hall 1 (Js.join blankLine
                   [ "Speaker (0:00): hello"%string;
                     "Speaker (1:02): there"%string ])).
  - apply Permutation_sym, Permutation_rev.
  - simpl. tauto.
Defined.

(** * The summary handler beyond its first generation *)

(** X19. When a summary row is stored for (id, type), the summary route
    answers 200 with the content of the first such row and changes
    nothing: it requests no completion and stores no row, and it does not
    look at the recording or its transcript. *)
Theorem getSummary_serves_stored
  (env : Env) (id : Z) (type : string) (w : World) (row : Summary.t) :
  MemStorage.getSummaryByType id type (storage w) = Some row ->
  getSummary env id type w = (Ok (json (JsonContent (Summary.content row))), w) /\
  In row (JsMap.values (MemStorage.summaries (storage w))) /\
  Summary.recordingId row = id /\ Summary.type row = type.
Proof.
  intros Hfind. split.
  - unfold getSummary, try_catch, bind, getSummaryByType, storage_read.
    now rewrite Hfind.
  - unfold MemStorage.getSummaryByType, Js.find in Hfind.
    apply find_some in Hfind as [Hin Hm].
    apply andb_true_iff in Hm as [H1 H2].
    split; [exact Hin|]. split; [now apply Z.eqb_eq | now apply String.eqb_eq].
Qed.

Lemma getSummary_serves_stored_witness :
  MemStorage.getSummaryByType 1 "general" (storage sampleWorld)
  = Some (Summary.mk 1 1 "general" (Some "A short summary"%string)) /\
  getSummary completionFailingEnv 1 "general" sampleWorld
  = (Ok (json (JsonContent (Some "A short summary"%string))), sampleWorld).
Proof.
  split; [reflexivity|].
  exact (proj1 (getSummary_serves_stored completionFailingEnv 1 "general"
                  sampleWorld
                  (Summary.mk 1 1 "general" (Some "A short summary"%string))
                  eq_refl)).
Defined.

(** X20. Eager generation makes the later read free: on a store that
    satisfies the invariant and has no row for the job's pair, once a
    summary job has settled with a completion that returned, the summary
    route answers that content for the pair and leaves the world as the
    job left it. *)
Theorem settled_job_is_served
  (env : Env) (job : SummaryJob) (w : World) (content : option string) :
  store_ok (storage w) ->
  MemStorage.getSummaryByType (j_recordingId job) (j_type job) (storage w) = None ->
  complete env (List.length (completions w))
    (summaryRequest (j_type job) (j_transcriptText job)) = Ok content ->
  exists w',
    settle env job w = (Ok tt, w') /\
    getSummary env (j_recordingId job) (j_type job) w'
    = (Ok (json (JsonContent content)), w').
Proof.
  intros Hok Hnone Hllm.
  destruct (settle_run env job w Hok) as (w' & Hrun & _ & _ & _ & Hst).
  cbv zeta in Hst. rewrite Hllm in Hst.
  exists w'. split; [exact Hrun|].
  unfold getSummary, try_catch, bind, getSummaryByType, storage_read.
  unfold MemStorage.getSummaryByType, Js.find in *.
  rewrite Hst. cbn [MemStorage.summaries MemStorage.put_summaries].
  unfold JsMap.values in *. rewrite map_app, find_app by exact Hnone.
  simpl. now rewrite Z.eqb_refl, String.eqb_refl.
Qed.

Lemma settled_job_is_served_witness :
  store_ok (storage processedWorld) /\
  MemStorage.getSummaryByType 1 "sales" (storage processedWorld) = None /\
  exists w',
    settle sampleEnv (mkJob 1 "sales" "Speaker (0:00): hello") processedWorld
    = (Ok tt, w') /\
    getSummary sampleEnv 1 "sales" w'
    = (Ok (json (JsonContent (Some "A short summary"%string))), w').
Proof.
  split; [exact processedWorld_ok|].
  split; [reflexivity|].
  exact (settled_job_is_served sampleEnv
           (mkJob 1 "sales" "Speaker (0:00): hello") processedWorld
           (Some "A short summary"%string) processedWorld_ok eq_refl eq_refl).
Defined.

(** X21. With no summary row stored for (id, type), the summary route
    answers 404 "Recording not found" when no recording is stored under the
    id and 404 "Transcript not found" when the recording has no segment,
    changing nothing in either case; and when the recording has segments
    and the completion is rejected it answers 500 "Failed to get summary"
    with the error's message, having sent the one request and stored no
    row. *)
Theorem getSummary_rejections
  (env : Env) (id : Z) (type : string) (w : World) :
  MemStorage.getSummaryByType id type (storage w) = None ->
  (MemStorage.getRecording id (storage w) = None ->
   getSummary env id type w
   = (Ok (mkResponse 404 (JsonMessage "Recording not found" None)), w)) /\
  (forall r,
      MemStorage.getRecording id (storage w) = Some r ->
      MemStorage.getTranscriptByRecordingId id (storage w) = [] ->
      getSummary env id type w
      = (Ok (mkResponse 404 (JsonMessage "Transcript not found" None)), w)) /\
  (forall r t ts e,
      MemStorage.getRecording id (storage w) = Some r ->
      MemStorage.getTranscriptByRecordingId id (storage w) = t :: ts ->
      complete env (List.length (completions w))
        (summaryRequest type (Js.join blankLine (map storedLine (t :: ts))))
      = Throw e ->
      getSummary env id type w
      = (Ok (mkResponse 500 (JsonMessage "Failed to get summary" (Some e))),
         mkWorld (storage w) (ticks w)
           (completions w
              ++ [summaryRequest type
                    (Js.join blankLine (map storedLine (t :: ts)))])
           (dispatched w))).
Proof.
  intros Hnone.
  unfold getSummary, try_catch, bind, getSummaryByType, getRecording,
    getTranscriptByRecordingId, storage_read, generateSummary,
    completions_create, ret.
  rewrite Hnone. cbn beta.
  split; [intros ->; reflexivity|].
  split.
  - intros r -> ->. reflexivity.
  - intros r t ts e Hr Ht He. rewrite Hr, Ht. unfold bind.
    cbn beta iota zeta. rewrite He. reflexivity.
Qed.

Lemma getSummary_rejections_witness :
  MemStorage.getSummaryByType 9 "general" (storage uploadedWorld) = None /\
  getSummary sampleEnv 9 "general" uploadedWorld
  = (Ok (mkResponse 404 (JsonMessage "Recording not found" None)),
     uploadedWorld).
Proof.
  split; [reflexivity|].
  exact (proj1 (getSummary_rejections sampleEnv 9 "general" uploadedWorld
                  eq_refl) eq_refl).
Defined.

(** * The chat handler *)

(** X22. The chat route checks the message first: a missing or empty
    message is answered 400 "No message provided" whatever the id, even
    when no such recording exists; a provided message for an id without a
    recording is answered 404 "Recording not found".  Neither changes the
    world. *)
Theorem postChat_rejections (env : Env) (id : Z) (message : option string)
  (w : World) :
  (Js.truthy message = false ->
   postChat env id message w
   = (Ok (mkResponse 400 (JsonMessage "No message provided" None)), w)) /\
  (Js.truthy message = true ->
   MemStorage.getRecording id (storage w) = None ->
   postChat env id message w
   = (Ok (mkResponse 404 (JsonMessage "Recording not found" None)), w)).
Proof.
  unfold postChat, try_catch, bind, getRecording, storage_read, ret.
  split.
  - intros ->. reflexivity.
  - intros Hmsg Hget. rewrite Hmsg. cbn [negb]. cbn beta iota.
    rewrite Hget. reflexivity.
Qed.

(** X23. A chat turn on a stored recording that has segments, on a store
    that satisfies the invariant: the user's message is stored first, under
    the next chat id; exactly one completion request is sent, built from
    the transcript text and the message; when it returns, the assistant's
    reply is stored under the following id with a later clock reading and
    the route answers 200 with the reply; when it is rejected, the route
    answers 500 "Failed to process chat message" and the user's message
    stays stored without a reply.  Recordings, segments and summaries are
    not touched. *)
Theorem postChat_exchange
  (env : Env) (id : Z) (text : string) (w : World)
  (r : Recording.t) (t : Transcript.t) (ts : list Transcript.t) :
  store_ok (storage w) ->
  Js.truthy (Some text) = true ->
  MemStorage.getRecording id (storage w) = Some r ->
  MemStorage.getTranscriptByRecordingId id (storage w) = t :: ts ->
  let request :=
    chatRequest (Js.join blankLine (map storedLine (t :: ts))) text in
  let next := MemStorage.chatMessageIdCounter (storage w) in
  let asked :=
    ChatMessage.mk next id "user" (Some text) (clock env (ticks w)) in
  exists reply w',
    postChat env id (Some text) w = (Ok reply, w') /\
    completions w' = completions w ++ [request] /\
    MemStorage.recordings (storage w') = MemStorage.recordings (storage w) /\
    MemStorage.transcripts (storage w') = MemStorage.transcripts (storage w) /\
    MemStorage.summaries (storage w') = MemStorage.summaries (storage w) /\
    match complete env (List.length (completions w)) request with
    | Ok aiResponse =>
        reply = json (JsonChatResponse aiResponse) /\
        MemStorage.chatMessages (storage w')
        = MemStorage.chatMessages (storage w)
            ++ [(next, asked);
                (next + 1,
                 ChatMessage.mk (next + 1) id "assistant" aiResponse
                                (clock env (S (ticks w))))]
    | Throw e =>
        reply = mkResponse 500
                  (JsonMessage "Failed to process chat message" (Some e)) /\
        MemStorage.chatMessages (storage w')
        = MemStorage.chatMessages (storage w) ++ [(next, asked)]
    end.
Proof.
  intros Hok Hmsg Hget Htr request next asked.
  destruct text as [|c text']; [discriminate|].
  set (text := String c text') in *.
  assert (~ In next (JsMap.keys (MemStorage.chatMessages (storage w))))
    as Hfresh by (apply fresh_key; apply Hok).
  assert (JsMap.set next asked (MemStorage.chatMessages (storage w))
          = MemStorage.chatMessages (storage w) ++ [(next, asked)]) as Hset
      by now apply set_fresh.
  unfold postChat, try_catch. rewrite Hmsg. cbn [negb].
  rewrite (bind_ok _ _ w w (Some r))
    by (unfold getRecording, storage_read; now rewrite Hget).
  rewrite (bind_ok _ _ w w (t :: ts))
    by (unfold getTranscriptByRecordingId, storage_read; now rewrite Htr).
  erewrite bind_ok; [|reflexivity].
  change (Js.orElse (Some text) EmptyString) with text. fold request.
  unfold bind at 1, completions_create. cbn [completions with_storage].
  destruct (complete env (List.length (completions w)) request)
    as [aiResponse|e].
  - eexists. eexists. split; [reflexivity|].
    cbn -[Js.join chatRequest Z.add text].
    repeat split.
    fold next. fold asked. rewrite Hset.
    rewrite set_fresh; [now rewrite <- app_assoc|].
    unfold JsMap.keys. rewrite map_app. simpl.
    intros Hin. apply in_app_iff in Hin as [Hin|[Hin|[]]]; [|lia].
    pose proof (below_lt _ _ _ (proj2 (proj2 (proj2 (proj2 Hok)))) Hin). lia.
  - eexists. eexists. split; [reflexivity|].
    cbn -[Js.join chatRequest Z.add text]. repeat split. exact Hset.
Qed.

Lemma postChat_exchange_witness :
  store_ok (storage processedWorld) /\
  Js.truthy (Some "Who spoke?"%string) = true /\
  exists reply w',
    postChat completionFailingEnv 1 (Some "Who spoke?"%string) processedWorld
    = (Ok reply, w') /\
    reply = mkResponse 500
              (JsonMessage "Failed to process chat message"
                           (Some "503 service unavailable"%string)) /\
    MemStorage.chatMessages (storage w')
    = [(1, ChatMessage.mk 1 1 "user" (Some "Who spoke?"%string) 1700000000001)].
Proof.
  split; [exact processedWorld_ok|].
  split; [reflexivity|].
  pose proof (postChat_exchange completionFailingEnv 1 "Who spoke?"
                processedWorld
                (Recording.mk 1 "standup" "1700000000000-42.wav" 0
                              false true 1700000000000)
                (Transcript.mk 1 1 "Speaker" 0 "hello")
                [Transcript.mk 2 1 "Speaker" 62 "there"]
                processedWorld_ok eq_refl eq_refl eq_refl) as H.
  cbv zeta in H.
  destruct H as (reply & w' & Hrun & _ & _ & _ & _ & Hreply & Hchat).
  exists reply, w'. split; [exact Hrun|]. split; [exact Hreply | exact Hchat].
Defined.

(** * The delete route *)

Lemma listing_after_delete (id : Z) (s : MemStorage.t) :
  MemStorage.getTranscriptByRecordingId id (MemStorage.deleteRecording id s)
  = [].
Proof.
  unfold MemStorage.getTranscriptByRecordingId.
  rewrite filter_none; [reflexivity|].
  intros t Hin. apply values_In in Hin as (k & Hin). simpl in Hin.
  apply deleteWhere_In in Hin as [_ Hp]. exact Hp.
Qed.

(** X24. The delete route answers 404 for an id without a recording and
    changes nothing.  When the recording's file exists and removing it
    fails, the route answers 500 "Failed to delete recording" with the
    error's message and the store is left untouched: the recording and
    everything that belongs to it are still there. *)
Theorem deleteRecordingRoute_failures
  (existsSync : string -> bool) (unlink : string -> Outcome unit)
  (id : Z) (w : World) :
  (MemStorage.getRecording id (storage w) = None ->
   deleteRecordingRoute existsSync unlink id w
   = (Ok (mkReply 404 (PlainBody (JsonMessage "Recording not found" None))), w)) /\
  (forall r e,
      MemStorage.getRecording id (storage w) = Some r ->
      existsSync (Recording.filename r) = true ->
      unlink (Recording.filename r) = Throw e ->
      deleteRecordingRoute existsSync unlink id w
      = (Ok (mkReply 500
               (PlainBody (JsonMessage "Failed to delete recording" (Some e)))),
         w)).
Proof.
  unfold deleteRecordingRoute, try_catch, bind, getRecording, storage_read,
    fs_unlink, ret.
  split.
  - intros ->. reflexivity.
  - intros r e Hget Hex Hun. rewrite Hget. cbn beta iota.
    rewrite Hex, Hun. reflexivity.
Qed.

(** X25. When the recording is stored and its file is either absent or
    removed without error, the delete route answers 200 and leaves the
    store as [deleteRecording] makes it.  Afterwards the recording route
    and the status route answer 404 for the id, the transcript route
    answers 200 with an empty list, the chat route (for a provided
    message) and the summary route answer 404 "Recording not found", and a
    second delete answers 404. *)
Theorem deleteRecordingRoute_success
  (env : Env) (existsSync : string -> bool) (unlink : string -> Outcome unit)
  (id : Z) (w : World) (r : Recording.t) :
  MemStorage.getRecording id (storage w) = Some r ->
  existsSync (Recording.filename r) = false \/
  unlink (Recording.filename r) = Ok tt ->
  let w' := with_storage (MemStorage.deleteRecording id (storage w)) w in
  deleteRecordingRoute existsSync unlink id w
  = (Ok (mkReply 200
           (PlainBody (JsonMessage "Recording deleted successfully" None))),
     w') /\
  getRecordingRoute id w'
  = (Ok (mkReply 404 (PlainBody (JsonMessage "Recording not found" None))), w') /\
  getStatus id w'
  = (Ok (mkResponse 404 (JsonMessage "Recording not found" None)), w') /\
  getTranscriptRoute id w' = (Ok (mkReply 200 (JsonTranscript [])), w') /\
  (forall message,
      Js.truthy message = true ->
      postChat env id message w'
      = (Ok (mkResponse 404 (JsonMessage "Recording not found" None)), w')) /\
  (forall type,
      getSummary env id type w'
      = (Ok (mkResponse 404 (JsonMessage "Recording not found" None)), w')) /\
  deleteRecordingRoute existsSync unlink id w'
  = (Ok (mkReply 404 (PlainBody (JsonMessage "Recording not found" None))), w').
Proof.
  intros Hget Hfile w'.
  assert (MemStorage.getRecording id (storage w') = None) as Hgone
      by (unfold w', MemStorage.getRecording; simpl; apply get_delete_same).
  split.
  { unfold deleteRecordingRoute, try_catch, bind, getRecording, storage_read,
      fs_unlink, storage_do, ret.
    rewrite Hget. cbn beta iota.
    destruct (existsSync (Recording.filename r)) eqn:Hex.
    - destruct Hfile as [Hf|Hf]; [discriminate|]. rewrite Hf. reflexivity.
    - reflexivity. }
  split.
  { unfold getRecordingRoute, try_catch, bind, getRecording, storage_read, ret.
    now rewrite Hgone. }
  split.
  { unfold getStatus, try_catch, bind, getRecording, storage_read, ret.
    now rewrite Hgone. }
  split.
  { unfold getTranscriptRoute, try_catch, bind, getTranscriptByRecordingId,
      storage_read, ret.
    unfold w'. cbn [storage with_storage].
    now rewrite listing_after_delete. }
  split.
  { intros message Hmsg.
    unfold postChat, try_catch, bind, getRecording, storage_read, ret.
    rewrite Hmsg. cbn [negb]. cbn beta iota. now rewrite Hgone. }
  split.
  { intros type.
    assert (MemStorage.getSummaryByType id type (storage w') = None) as Hno.
    { unfold MemStorage.getSummaryByType, Js.find. apply find_none_all.
      intros x Hin. apply andb_false_iff. left.
      apply values_In in Hin as (k & Hin). unfold w' in Hin. simpl in Hin.
      apply deleteWhere_In in Hin as [_ Hp]. simpl in Hp.
      destruct (Z.eqb_spec (Summary.recordingId x) id); [discriminate|].
      reflexivity. }
    unfold getSummary, try_catch, bind, getSummaryByType, getRecording,
      storage_read, ret.
    now rewrite Hno, Hgone. }
  unfold deleteRecordingRoute, try_catch, bind, getRecording, storage_read, ret.
  now rewrite Hgone.
Qed.

Lemma deleteRecordingRoute_success_witness :
  MemStorage.getRecording 1 (storage sampleWorld)
  = Some (Recording.mk 1 "standup" "1700000000000-42.wav" 0
                       false true 1700000000000) /\
  deleteRecordingRoute (fun _ => true) (fun _ => Ok tt) 1 sampleWorld
  = (Ok (mkReply 200
           (PlainBody (JsonMessage "Recording deleted successfully" None))),
     with_storage (MemStorage.deleteRecording 1 (storage sampleWorld))
                  sampleWorld) /\
  getTranscriptRoute 1
    (with_storage (MemStorage.deleteRecording 1 (storage sampleWorld))
                  sampleWorld)
  = (Ok (mkReply 200 (JsonTranscript [])),
     with_storage (MemStorage.deleteRecording 1 (storage sampleWorld))
                  sampleWorld).
Proof.
  split; [reflexivity|].
  pose proof (deleteRecordingRoute_success sampleEnv (fun _ => true)
                (fun _ => Ok tt) 1 sampleWorld
                (Recording.mk 1 "standup" "1700000000000-42.wav" 0
                              false true 1700000000000)
                eq_refl (or_intror eq_refl)) as H.
  cbv zeta in H. destruct H as (Hrun & _ & _ & Hlist & _).
  split; [exact Hrun | exact Hlist].
Defined.

(** * Time stamps *)

Lemma string_app_assoc (a b c : string) :
  ((a ++ b) ++ c)%string = (a ++ (b ++ c))%string.
Proof. induction a as [|x a IH]; simpl; [reflexivity | now rewrite IH]. Qed.

(** Below one minute the seconds field is two characters wide. *)
Lemma two_digit_seconds (r : Z) :
  0 <= r < 60 ->
  String.length (Js.padStart 2 "0"%char (Js.numToString r)) = 2%nat.
Proof.
  intros Hr.
  assert (forallb
            (fun n => Nat.eqb
                        (String.length
                           (Js.padStart 2 "0"%char (Js.numToString (Z.of_nat n))))
                        2)
            (seq 0 60) = true) as Hall by (vm_compute; reflexivity).
  rewrite forallb_forall in Hall.
  specialize (Hall (Z.to_nat r)).
  rewrite Z2Nat.id in Hall by lia.
  apply Nat.eqb_eq, Hall. apply in_seq. lia.
Qed.

(** X26. The transcript text sent to the model stamps a stored segment
    exactly as the transcript viewer's [formatTimestamp] displays it, and
    for a non-negative timestamp that stamp is the number of whole minutes,
    a colon, and the remaining seconds written with exactly two
    characters. *)
Theorem stamps_match_the_viewer (t : Transcript.t) :
  storedLine t
  = (Transcript.speaker t ++ " (" ++ formatTimestamp (Transcript.timestamp t)
       ++ "): " ++ Transcript.text t)%string /\
  (0 <= Transcript.timestamp t ->
   let seconds :=
     Js.padStart 2 "0"%char (Js.numToString (Transcript.timestamp t mod 60)) in
   formatTimestamp (Transcript.timestamp t)
   = (Js.numToString (Transcript.timestamp t / 60) ++ ":" ++ seconds)%string /\
   String.length seconds = 2%nat).
Proof.
  split.
  - unfold storedLine, stamp, formatTimestamp. cbv zeta.
    now rewrite !string_app_assoc.
  - intros Hpos. cbv zeta. unfold formatTimestamp. cbv zeta.
    rewrite Z.rem_mod_nonneg by lia.
    split; [reflexivity|].
    apply two_digit_seconds. apply Z.mod_pos_bound. lia.
Qed.

(** Flooring commutes with division by a positive integer. *)
Lemma Qfloor_div (x : Q) (m : Z) :
  0 < m -> Qfloor (x / inject_Z m) = Qfloor x / m.
Proof.
  intros Hm.
  assert (0 < inject_Z m)%Q as HmQ
      by (change (inject_Z 0 < inject_Z m)%Q; rewrite <- Zlt_Qlt; exact Hm).
  set (q := Qfloor x / m).
  assert (m * q <= Qfloor x) as Hlow by (apply Z.mul_div_le; lia).
  assert (Qfloor x < m * (q + 1)) as Hhigh.
  { unfold q. pose proof (Z.mul_succ_div_gt (Qfloor x) m Hm). lia. }
  assert (q <= Qfloor (x / inject_Z m)) as H1.
  { rewrite <- (Qfloor_Z q). apply Qfloor_resp_le.
    apply Qle_shift_div_l; [exact HmQ|].
    rewrite <- inject_Z_mult.
    eapply Qle_trans; [|apply Qfloor_le].
    rewrite <- Zle_Qle. lia. }
  assert (Qfloor (x / inject_Z m) < q + 1) as H2.
  { rewrite Zlt_Qlt.
    eapply Qle_lt_trans; [apply Qfloor_le|].
    apply Qlt_shift_div_r; [exact HmQ|].
    rewrite <- inject_Z_mult.
    eapply Qlt_le_trans; [apply Qlt_floor|].
    rewrite <- Zle_Qle. lia. }
  lia.
Qed.

(** X27. The line the pipeline writes for a fresh segment against the line
    the handlers write for the same segment once stored: they are equal
    whenever rounding the start to the nearest second rounds down.  When
    rounding rounds up onto a whole minute, the pipeline's minute count is
    one less than the stored segment's. *)
Theorem segmentLine_against_stored (recordingId next : Z) (segment : OpenAI.Segment) :
  let stored :=
    Transcript.mk next recordingId "Speaker"
                  (Js.Math_round (OpenAI.start segment)) (OpenAI.text segment) in
  (Js.Math_round (OpenAI.start segment) = Js.Math_floor (OpenAI.start segment) ->
   segmentLine segment = storedLine stored) /\
  (Js.Math_round (OpenAI.start segment)
   = Js.Math_floor (OpenAI.start segment) + 1 ->
   Js.Math_round (OpenAI.start segment) mod 60 = 0 ->
   Js.Math_floor (OpenAI.start segment / 60)%Q
   = Js.Math_round (OpenAI.start segment) / 60 - 1).
Proof.
  cbv zeta. split.
  - intros Hround. unfold segmentLine, storedLine, stamp.
    cbn [Transcript.speaker Transcript.timestamp Transcript.text].
    unfold Js.Math_floor in *.
    change (OpenAI.start segment / 60)%Q
      with (OpenAI.start segment / inject_Z 60)%Q.
    rewrite (Qfloor_div (OpenAI.start segment) 60) by lia.
    now rewrite Hround.
  - intros Hround Hmod. unfold Js.Math_floor in *.
    change (OpenAI.start segment / 60)%Q
      with (OpenAI.start segment / inject_Z 60)%Q.
    rewrite (Qfloor_div (OpenAI.start segment) 60) by lia.
    assert (Js.Math_round (OpenAI.start segment)
            = 60 * (Js.Math_round (OpenAI.start segment) / 60)) as Hdiv
        by (pose proof (Z.div_mod (Js.Math_round (OpenAI.start segment)) 60);
            lia).
    replace (Qfloor (OpenAI.start segment))
      with (Js.Math_round (OpenAI.start segment) - 1) by lia.
    set (k := Js.Math_round (OpenAI.start segment) / 60) in *.
    rewrite Hdiv. replace (60 * k - 1) with ((k - 1) * 60 + 59) by lia.
    rewrite Z.div_add_l by lia. rewrite (Z.div_small 59 60) by lia. lia.
Qed.

(** * A pipeline whose recording is gone *)

(** X28. When no recording is stored under the id of the recording a
    pipeline was started for (it was deleted in the meantime), the pipeline
    rejects with "Recording with id N not found" whatever the file system
    and the transcription service answer, and changes nothing: no segment
    is stored and no summary job is dispatched.  The rejection is only
    logged: the detached pipeline ends normally. *)
Theorem pipeline_of_deleted_recording_rejects
  (env : Env) (w : World) (recording : Recording.t) :
  MemStorage.getRecording (Recording.id recording) (storage w) = None ->
  processRecording env recording w
  = (Throw (MemStorage.notFound (Recording.id recording)), w) /\
  detached env recording w = (Ok tt, w).
Proof.
  intros Hnone.
  assert (processRecording env recording w
          = (Throw (MemStorage.notFound (Recording.id recording)), w)) as Hrun.
  { destruct (readFile env (Recording.filename recording)) as [bytes|e]
      eqn:Hread.
    - destruct (transcribe env (Recording.filename recording) bytes)
        as [transcription|e] eqn:Htr.
      + now apply (processRecording_absent_rejects env w recording bytes
                     transcription).
      + unfold processRecording, try_catch.
        rewrite (transcription_throw env w recording bytes e Hread Htr).
        unfold processRecording_catch.
        apply bind_throw. now apply updateRecording_absent.
    - unfold processRecording, try_catch.
      rewrite (readFile_throw env w recording e Hread).
      unfold processRecording_catch.
      apply bind_throw. now apply updateRecording_absent. }
  split; [exact Hrun|].
  unfold detached, try_catch. now rewrite Hrun.
Qed.

Lemma pipeline_of_deleted_recording_rejects_witness :
  MemStorage.getRecording 1 (storage initialWorld) = None /\
  processRecording sampleEnv uploaded initialWorld
  = (Throw "Recording with id 1 not found"%string, initialWorld).
Proof.
  split; [reflexivity|].
  exact (proj1 (pipeline_of_deleted_recording_rejects sampleEnv initialWorld
                  uploaded eq_refl)).
Defined.

Lemma deleteRecordingRoute_failures_witness :
  MemStorage.getRecording 1 (storage sampleWorld)
  = Some (Recording.mk 1 "standup" "1700000000000-42.wav" 0
                       false true 1700000000000) /\
  deleteRecordingRoute (fun _ => true) (fun _ => Throw "EACCES"%string) 1
                       sampleWorld
  = (Ok (mkReply 500
           (PlainBody (JsonMessage "Failed to delete recording"
                                   (Some "EACCES"%string)))),
     sampleWorld).
Proof.
  split; [reflexivity|].
  exact (proj2 (deleteRecordingRoute_failures (fun _ => true)
                  (fun _ => Throw "EACCES"%string) 1 sampleWorld)
               _ "EACCES"%string eq_refl eq_refl eq_refl).
Defined.

Lemma segmentLine_against_stored_witness :
  Js.Math_round (299 # 5) = Js.Math_floor (299 # 5) + 1 /\
  Js.Math_round (299 # 5) mod 60 = 0 /\
  Js.Math_floor ((299 # 5) / 60)%Q = 0 /\
  Js.Math_round (299 # 5) / 60 = 1.
Proof.
  split; [reflexivity|]. split; [reflexivity|]. split; [|reflexivity].
  exact (proj2 (segmentLine_against_stored 1 1
                  (OpenAI.mkSegment (299 # 5) "so"%string))
               eq_refl eq_refl).
Defined.
